(** * tempfile: safe creation of a temporary file

    A shallow embedding of [tempfile.c] (the second translation unit of
    [src/ischroot.c], lines 213-364): the mode parser [parsemode], the
    option loop of [main], the explicit-name path and the generated-name
    retry loop, followed by the close / report / exit epilogue.

    The C library and the operating system are not part of the
    repository; they are modelled here as far as the program observes
    them: [strtol] after the C standard, [open] with [O_CREAT|O_EXCL]
    after POSIX, and [tempnam], [malloc], [close] and the line
    [getopt_long] writes about an option it refuses as oracles of an
    environment record. *)

From Stdlib Require Import ZArith Ascii String List Bool Lia.
From stdpp Require Import gmap strings list fin_maps.

Local Open Scope Z_scope.

(** ** Characters and C strings

    A C string is modelled by the [string] of its characters before the
    terminating NUL; a [char *] into the middle of a string is the
    remaining tail. *)

Module CString.

Definition code (c : ascii) : Z := Z.of_N (N_of_ascii c).

(** [isspace] in the C locale: space, and HT LF VT FF CR. *)
Definition isspace (c : ascii) : bool :=
  (code c =? 32) || ((9 <=? code c) && (code c <=? 13)).

(** Value of a character as a digit in some base up to 36. *)
Definition digit_value (c : ascii) : option Z :=
  let n := code c in
  if (48 <=? n) && (n <=? 57) then Some (n - 48)
  else if (97 <=? n) && (n <=? 122) then Some (n - 87)
  else if (65 <=? n) && (n <=? 90) then Some (n - 55)
  else None.

Fixpoint skip_space (s : string) : string :=
  match s with
  | String c r => if isspace c then skip_space r else s
  | EmptyString => s
  end.

(** The sign that may precede the digits: [(negative, rest)]. *)
Definition take_sign (s : string) : bool * string :=
  match s with
  | String c r =>
      if code c =? 45 then (true, r)
      else if code c =? 43 then (false, r)
      else (false, s)
  | EmptyString => (false, s)
  end.

(** Longest run of digits of the base: accumulated value, whether any
    digit was consumed, and the tail at the first other character. *)
Fixpoint scan_digits (base : Z) (s : string) (acc : Z) (any : bool)
  : Z * bool * string :=
  match s with
  | String c r =>
      match digit_value c with
      | Some d =>
          if d <? base then scan_digits base r (acc * base + d) true
          else (acc, any, s)
      | None => (acc, any, s)
      end
  | EmptyString => (acc, any, s)
  end.

(** [long] has 64 bits. *)
Definition LONG_MAX : Z := 9223372036854775807.
Definition LONG_MIN : Z := - LONG_MAX - 1.

Definition clamp_long (v : Z) : Z :=
  if v >? LONG_MAX then LONG_MAX
  else if v <? LONG_MIN then LONG_MIN
  else v.

(** [strtol nptr &endptr base] for a base without prefix (here 8):
    the converted value and [endptr].  When no digit is found the value
    is 0 and [endptr] is [nptr] itself; a value out of the range of
    [long] is replaced by [LONG_MAX] or [LONG_MIN]. *)
Definition strtol (nptr : string) (base : Z) : Z * string :=
  let '(neg, s) := take_sign (skip_space nptr) in
  match scan_digits base s 0 false with
  | (v, true, endptr) => (clamp_long (if neg then - v else v), endptr)
  | (_, false, _) => (0, nptr)
  end.

(** [*p] is the NUL terminator. *)
Definition at_nul (p : string) : bool :=
  match p with EmptyString => true | String _ _ => false end.

End CString.

Import CString.

(** ** The mode parser (lines 258-268)

    [mode_t] is an unsigned 32-bit integer.  The output parameter
    [mode_t *out] is passed as its current value and returned next to
    the [int] result. *)

Definition mode_t_cast (v : Z) : Z := v mod 2 ^ 32.

(** Octal literals of the source. *)
Definition o7777 : Z := 4095.
Definition o600 : Z := 384.

Definition parsemode (in_ : string) (out : Z) : Z * Z :=
  let '(mode, endptr) := strtol in_ 8 in
  if negb (at_nul endptr) || (mode <? 0) || (mode >? o7777)
  then (1, out)
  else (0, mode_t_cast mode).

(** A string of octal digits and the integer it denotes, as the
    specification speaks of them. *)
Definition is_octal (c : ascii) : bool := (48 <=? code c) && (code c <=? 55).

Fixpoint all_octal (s : string) : bool :=
  match s with
  | String c r => is_octal c && all_octal r
  | EmptyString => true
  end.

Definition octal_string (s : string) : bool :=
  negb (at_nul s) && all_octal s.

Fixpoint octal_value_from (acc : Z) (s : string) : Z :=
  match s with
  | String c r => octal_value_from (acc * 8 + (code c - 48)) r
  | EmptyString => acc
  end.

Definition octal_value (s : string) : Z := octal_value_from 0 s.

(** The digits [strtol] looks at: what follows the white space and
    one sign, with the sign. *)
Definition mode_body (s : string) : bool * string := take_sign (skip_space s).

(** ** The process and its environment

    What the program can observe of the C library and the kernel. *)

Module Sys.

Definition ENOENT : Z := 2.
Definition EBADF : Z := 9.
Definition ENOMEM : Z := 12.
Definition EACCES : Z := 13.
Definition EEXIST : Z := 17.
Definition ENOSPC : Z := 28.

Definition O_RDWR : Z := 2.
Definition O_CREAT : Z := 64.
Definition O_EXCL : Z := 128.

Definition nl : string := String (ascii_of_nat 10) EmptyString.

Record file := File { f_mode : Z; f_data : string }.

(** Calls that leave the process, in the order they are made. *)
Inductive event :=
| EvTempnam (dir pfx : option string) (r : option string)
| EvAlloc (p : N)
| EvFree (p : N)
| EvOpen (path : string) (flags mode : Z) (r : Z)
| EvClose (fd : Z) (r : Z)
| EvWrite (fd : Z) (s : string)
| EvExit (status : Z).

(** The parts of the run the program does not decide. *)
Record env := Env {
  progname : string;                 (* argv[0] *)
  PACKAGE_VERSION : string;          (* macro of the build *)
  umask : Z;
  strerror : Z -> string;
  (* the [k]-th call of tempnam(dir, pfx): the name, or NULL *)
  tempnam_name : nat -> option string -> option string -> option string;
  (* the [k]-th allocation (malloc, strdup) returns NULL *)
  alloc_fails : nat -> bool;
  (* open fails on this path for a reason other than the path's state *)
  open_fault : string -> option Z;
  (* close of this descriptor fails with this errno *)
  close_fault : Z -> option Z;
  (* what getopt_long itself writes to standard error before it
     returns '?' for an option it refuses; [opterr] is never cleared *)
  getopt_error : string
}.

Record world := World {
  fs : gmap string file;             (* the paths that exist *)
  heap : gmap N string;              (* live blocks; address 0 is NULL *)
  fds : gset nat;                    (* open descriptors *)
  errno : Z;
  ntempnam : nat;                    (* calls of tempnam so far *)
  nalloc : nat;                      (* calls of malloc and strdup so far *)
  trace : list event
}.

Definition set_fs (f : gmap string file) (w : world) : world :=
  World f (heap w) (fds w) (errno w) (ntempnam w) (nalloc w) (trace w).
Definition set_heap (h : gmap N string) (w : world) : world :=
  World (fs w) h (fds w) (errno w) (ntempnam w) (nalloc w) (trace w).
Definition set_fds (d : gset nat) (w : world) : world :=
  World (fs w) (heap w) d (errno w) (ntempnam w) (nalloc w) (trace w).
Definition set_errno (e : Z) (w : world) : world :=
  World (fs w) (heap w) (fds w) e (ntempnam w) (nalloc w) (trace w).
Definition tick_tempnam (w : world) : world :=
  World (fs w) (heap w) (fds w) (errno w) (S (ntempnam w)) (nalloc w) (trace w).
Definition tick_alloc (w : world) : world :=
  World (fs w) (heap w) (fds w) (errno w) (ntempnam w) (S (nalloc w)) (trace w).
Definition log (e : event) (w : world) : world :=
  World (fs w) (heap w) (fds w) (errno w) (ntempnam w) (nalloc w) (trace w ++ [e]).

(** A run either goes on with a value, has called [exit], or the
    model's fuel for the unbounded loop is used up. *)
Inductive outcome (A : Type) : Type :=
| Ret (a : A) (w : world)
| Exit (status : Z) (w : world)
| Timeout.
Arguments Ret {A} a w.
Arguments Exit {A} status w.
Arguments Timeout {A}.

Definition M (A : Type) : Type := world -> outcome A.

Definition ret {A} (a : A) : M A := fun w => Ret a w.

Definition bind {A B} (c : M A) (k : A -> M B) : M B :=
  fun w =>
    match c w with
    | Ret a w' => k a w'
    | Exit s w' => Exit s w'
    | Timeout => Timeout
    end.

Declare Scope sys_scope.
Delimit Scope sys_scope with sys.
Notation "'let*' x ':=' c 'in' k" := (bind c (fun x => k))
  (at level 10, x name, c at level 100, k at level 200) : sys_scope.
Notation "c '>>' k" := (bind c (fun _ => k))
  (at level 100, k at level 200, right associativity) : sys_scope.
Local Open Scope sys_scope.

Definition exit {A} (status : Z) : M A :=
  fun w => Exit status (log (EvExit status) w).

Definition write (fd : Z) (s : string) : M unit :=
  fun w => Ret tt (log (EvWrite fd s) w).

Definition get_errno : M Z := fun w => Ret (errno w) w.

(** The string a pointer points to. *)
Definition deref (p : N) (w : world) : string := default EmptyString (heap w !! p).

Definition load (p : N) : M string := fun w => Ret (deref p w) w.

Definition fresh_addr (w : world) : N := fresh ({[0%N]} ∪ dom (heap w)).
Definition fresh_fd (w : world) : nat := fresh (fds w).
Arguments fresh_addr : simpl never.
Arguments fresh_fd : simpl never.

Section WithEnv.
Variable E : env.

(** [malloc]: a fresh block (its bytes are written by the caller), or
    NULL with [ENOMEM]. *)
Definition malloc : M N :=
  fun w =>
    if alloc_fails E (nalloc w)
    then Ret 0%N (log (EvAlloc 0) (set_errno ENOMEM (tick_alloc w)))
    else
      let p := fresh_addr w in
      Ret p (log (EvAlloc p) (set_heap (<[p := EmptyString]> (heap w)) (tick_alloc w))).

Definition store (p : N) (s : string) : M unit :=
  fun w => Ret tt (set_heap (<[p := s]> (heap w)) w).

Definition strcpy (dst src : N) : M unit :=
  let* s := load src in store dst s.

Definition strcat (dst : N) (src : string) : M unit :=
  let* d := load dst in store dst (d +:+ src).

Definition strdup (s : string) : M N :=
  let* p := malloc in
  if (p =? 0)%N then ret 0%N else (store p s >> ret p).

Definition free (p : N) : M unit :=
  fun w =>
    if (p =? 0)%N then Ret tt w
    else Ret tt (log (EvFree p) (set_heap (delete p (heap w)) w)).

(** [tempnam(dir, pfx)]: a malloc'ed name chosen by the library, or
    NULL. *)
Definition tempnam (dir pfx : option string) : M N :=
  fun w =>
    let r := tempnam_name E (ntempnam w) dir pfx in
    let w1 := log (EvTempnam dir pfx r) (tick_tempnam w) in
    match r with
    | None => Ret 0%N (set_errno ENOMEM w1)
    | Some s =>
        let p := fresh_addr w1 in
        Ret p (set_heap (<[p := s]> (heap w1)) w1)
    end.

(** [open(path, flags, mode)].  With [O_CREAT|O_EXCL] the existence
    check and the creation are one step: an existing path gives
    [EEXIST] and is left as it is. *)
Definition sys_open (path : string) (flags mode : Z) : M Z :=
  fun w =>
    let fail e := Ret (-1) (log (EvOpen path flags mode (-1)) (set_errno e w)) in
    let succeed w' :=
      let fd := fresh_fd w' in
      Ret (Z.of_nat fd)
          (log (EvOpen path flags mode (Z.of_nat fd)) (set_fds ({[fd]} ∪ fds w') w')) in
    match open_fault E path with
    | Some e => fail e
    | None =>
        match fs w !! path with
        | Some _ =>
            if Z.testbit flags 6 && Z.testbit flags 7 then fail EEXIST
            else succeed w
        | None =>
            if Z.testbit flags 6
            then succeed (set_fs (<[path := File (Z.land mode (Z.lnot (umask E))) EmptyString]> (fs w)) w)
            else fail ENOENT
        end
    end.

(** The errno with which an exclusive create of [path] fails. *)
Definition excl_errno (path : string) (w : world) : option Z :=
  match open_fault E path with
  | Some e => Some e
  | None => match fs w !! path with Some _ => Some EEXIST | None => None end
  end.

Definition sys_close (fd : Z) : M Z :=
  fun w =>
    if (fd <? 0) || negb (bool_decide (Z.to_nat fd ∈ fds w))
    then Ret (-1) (log (EvClose fd (-1)) (set_errno EBADF w))
    else
      let w1 := set_fds (fds w ∖ {[Z.to_nat fd]}) w in
      match close_fault E fd with
      | Some e => Ret (-1) (log (EvClose fd (-1)) (set_errno e w1))
      | None => Ret 0 (log (EvClose fd 0) w1)
      end.

Definition perror (s : string) : M unit :=
  let* e := get_errno in
  write 2 (s +:+ ": " +:+ strerror E e +:+ nl).

Definition puts (s : string) : M unit := write 1 (s +:+ nl).

End WithEnv.

End Sys.

Import Sys.
Local Open Scope sys_scope.

(** ** The program (lines 225-364) *)

(** Locals of [main].  [dir], [pfx] and [sfx] point into [argv] and are
    never freed: they are modelled by the string they point to, [None]
    for the null pointer.  [name] and [filename] point to heap blocks. *)
Record locals := Locals {
  name : N;
  dir : option string;
  pfx : option string;
  sfx : option string;
  filename : N;
  mode : Z;
  fd : Z
}.

Definition set_name (p : N) (l : locals) : locals :=
  Locals p (dir l) (pfx l) (sfx l) (filename l) (mode l) (fd l).
Definition set_dir (s : string) (l : locals) : locals :=
  Locals (name l) (Some s) (pfx l) (sfx l) (filename l) (mode l) (fd l).
Definition set_pfx (s : string) (l : locals) : locals :=
  Locals (name l) (dir l) (Some s) (sfx l) (filename l) (mode l) (fd l).
Definition set_sfx (s : string) (l : locals) : locals :=
  Locals (name l) (dir l) (pfx l) (Some s) (filename l) (mode l) (fd l).
Definition set_filename (p : N) (l : locals) : locals :=
  Locals (name l) (dir l) (pfx l) (sfx l) p (mode l) (fd l).
Definition set_mode (m : Z) (l : locals) : locals :=
  Locals (name l) (dir l) (pfx l) (sfx l) (filename l) m (fd l).
Definition set_fd (d : Z) (l : locals) : locals :=
  Locals (name l) (dir l) (pfx l) (sfx l) (filename l) (mode l) d.

(** Lines 274-276: [name=0, dir=0, pfx=0, sfx=0, filename=0],
    [mode = 0600]; [fd] is not initialised. *)
Definition init_locals : locals := Locals 0 None None None 0 o600 0.

Definition open_flags : Z := Z.lor O_RDWR (Z.lor O_CREAT O_EXCL).

Section Program.
Variable E : env.

Definition usage_text : string :=
  "Usage: " +:+ progname E +:+ " [OPTION]" +:+ nl +:+ nl +:+
  "Create a temporary file in a safe manner." +:+ nl +:+ nl +:+
  "-d, --directory=DIR  place temporary file in DIR" +:+ nl +:+
  "-m, --mode=MODE      open with MODE instead of 0600" +:+ nl +:+
  "-n, --name=FILE      use FILE instead of tempnam(3)" +:+ nl +:+
  "-p, --prefix=STRING  set temporary file's prefix to STRING" +:+ nl +:+
  "-s, --suffix=STRING  set temporary file's suffix to STRING" +:+ nl +:+
  "    --help           display this help and exit" +:+ nl +:+
  "    --version        output version information and exit" +:+ nl.

Definition try_help : string :=
  "Try `" +:+ progname E +:+ " --help' for more information." +:+ nl.

Definition invalid_mode (optarg : string) : string :=
  "Invalid mode `" +:+ optarg +:+ "'.  Mode must be octal." +:+ nl.

(** Lines 231-247. *)
Definition usage {A} (status : Z) : M A :=
  (if negb (status =? 0) then write 2 try_help else write 1 usage_text) >>
  exit status.

(** Lines 250-255. *)
Definition syserror {A} (fx : string) : M A :=
  perror E fx >> exit 1.

(** The [switch] of lines 291-321, on one return of [getopt_long]:
    the option character and [optarg].  The [default] is reached by
    the return ['?'] alone, which [getopt_long] makes after it has
    written its own line about the option to standard error: that
    write comes first in the last branch. *)
Definition option_case (optc : Z) (optarg : string) (l : locals) : M locals :=
  if optc =? 0 then ret l
  else if optc =? code "p" then ret (set_pfx optarg l)
  else if optc =? code "s" then ret (set_sfx optarg l)
  else if optc =? code "d" then ret (set_dir optarg l)
  else if optc =? code "m" then
    let '(r, m) := parsemode optarg (mode l) in
    if negb (r =? 0)
    then write 2 (invalid_mode optarg) >> usage 1
    else ret (set_mode m l)
  else if optc =? code "n" then
    let* p := strdup E optarg in
    if (p =? 0)%N then syserror "strdup" else ret (set_name p l)
  else if optc =? code "h" then usage 0
  else if optc =? code "v" then
    puts ("tempfile " +:+ PACKAGE_VERSION E) >> exit 0
  else write 2 (getopt_error E) >> usage 1.

(** The [while] of lines 289-322 over the successive returns of
    [getopt_long], up to [EOF]. *)
Fixpoint getopt_loop (opts : list (Z * string)) (l : locals) : M locals :=
  match opts with
  | [] => ret l
  | (optc, optarg) :: rest =>
      let* l' := option_case optc optarg l in
      getopt_loop rest l'
  end.

(** Lines 324-328: the caller's own name, one exclusive create. *)
Definition create_named (l : locals) : M locals :=
  let* path := load (name l) in
  let* d := sys_open E path open_flags (mode l) in
  if d <? 0 then syserror "open"
  else ret (set_filename (name l) (set_fd d l)).

(** Lines 333-342: the candidate, with the suffix when there is one. *)
Definition compose_filename (nm : N) (l : locals) : M N :=
  match sfx l with
  | Some s =>
      let* namesfx := malloc E in
      if (namesfx =? 0)%N then syserror "malloc"
      else strcpy namesfx nm >> strcat namesfx s >> ret namesfx
  | None => ret nm
  end.

(** Lines 330-354: the [for (;;)] loop; [fuel] bounds the number of
    candidates the model tries. *)
Fixpoint create_generated (fuel : nat) (l : locals) : M locals :=
  match fuel with
  | O => fun _ => Timeout
  | S fuel' =>
      let* nm := tempnam E (dir l) (pfx l) in
      if (nm =? 0)%N then syserror "tempnam"
      else
        let* fn := compose_filename nm l in
        let* path := load fn in
        let* d := sys_open E path open_flags (mode l) in
        if d <? 0 then
          let* e := get_errno in
          if e =? EEXIST then
            (if negb (nm =? fn)%N then free nm else ret tt) >>
            free fn >>
            create_generated fuel' l
          else syserror "open"
        else ret (set_name nm (set_filename fn (set_fd d l)))
  end.

(** Lines 357-363. *)
Definition finish (l : locals) : M Z :=
  let* r := sys_close E (fd l) in
  if negb (r =? 0) then syserror "close"
  else
    let* s := load (filename l) in
    puts s >>
    (if negb (name l =? filename l)%N then free (name l) else ret tt) >>
    free (filename l) >>
    exit 0.

(** [main], given what [getopt_long] returns call after call. *)
Definition main (opts : list (Z * string)) (fuel : nat) : M Z :=
  let* l := getopt_loop opts init_locals in
  let* l' := (if negb (name l =? 0)%N
              then create_named l
              else create_generated fuel l) in
  finish l'.

End Program.

(** ** Reading a trace *)

(** A file was created: an [open] that returned a descriptor. *)
Definition created (e : event) : bool :=
  match e with EvOpen _ _ _ r => 0 <=? r | _ => false end.

Definition is_close (e : event) : bool :=
  match e with EvClose _ _ => true | _ => false end.

Definition is_write (e : event) : bool :=
  match e with EvWrite _ _ => true | _ => false end.

Definition is_exit (e : event) : bool :=
  match e with EvExit _ => true | _ => false end.

Definition is_free (e : event) : bool :=
  match e with EvFree _ => true | _ => false end.

(** Nothing created, nothing closed. *)
Definition inert (e : event) : bool := negb (created e) && negb (is_close e).

(** Inert, and nothing written and no exit. *)
Definition quiet (e : event) : bool :=
  inert e && negb (is_write e) && negb (is_exit e).

(** What the run wrote to descriptor [d], write by write. *)
Fixpoint written (d : Z) (tr : list event) : list string :=
  match tr with
  | EvWrite d' s :: tr' => if d' =? d then s :: written d tr' else written d tr'
  | _ :: tr' => written d tr'
  | [] => []
  end.

(** The calls of [open]: path, flags, mode. *)
Fixpoint opens (tr : list event) : list (string * Z * Z) :=
  match tr with
  | EvOpen p f m _ :: tr' => (p, f, m) :: opens tr'
  | _ :: tr' => opens tr'
  | [] => []
  end.

(** [w'] continues [w] by events that all satisfy [P]. *)
Definition extends (P : event -> bool) (w w' : world) : Prop :=
  exists evs, trace w' = trace w ++ evs /\ forallb P evs = true.

Definition is_alloc (e : event) : bool :=
  match e with EvAlloc _ => true | _ => false end.

Definition is_open (e : event) : bool :=
  match e with EvOpen _ _ _ _ => true | _ => false end.





(** Standard output as one text: the writes to descriptor 1, joined. *)
Definition stdout (tr : list event) : string :=
  fold_right append EmptyString (written 1 tr).

(** The lines of a text: the pieces its newlines end, and what follows
    the last newline when that is not empty. *)
Definition is_newline (c : ascii) : bool := code c =? 10.

Fixpoint no_newline (s : string) : bool :=
  match s with
  | String c r => negb (is_newline c) && no_newline r
  | EmptyString => true
  end.

Fixpoint lines_from (acc s : string) : list string :=
  match s with
  | String c r =>
      if is_newline c then acc :: lines_from EmptyString r
      else lines_from (acc +:+ String c EmptyString) r
  | EmptyString =>
      match acc with
      | EmptyString => []
      | _ => [acc]
      end
  end.

Definition lines (s : string) : list string := lines_from EmptyString s.

(** The path tried for a name [base] that [tempnam] returned. *)
Definition candidate (base : string) (l : locals) : string :=
  match sfx l with
  | Some s => base +:+ s
  | None => base
  end.

(** Status and final state of a run that ended. *)
Definition final {A} (o : outcome A) : option (Z * world) :=
  match o with
  | Exit st w => Some (st, w)
  | Ret _ _ | Timeout => None
  end.

(** ** A concrete environment

    A machine on which [tempnam] hands out three names in turn, the
    directory [/ro] refuses every creation, and [/tmp/abAAA.tmp] is
    already there. *)

Module Demo.
Definition names (k : nat) (d p : option string) : option string :=
  Some (default "/tmp" d +:+ "/" +:+ default "file" p +:+
        match k with O => "AAA" | 1%nat => "BBB" | _ => "CCC" end)%string.
Definition faults (path : string) : option Z :=
  if String.prefix "/ro/" path then Some EACCES else None.
Definition closes (d : Z) : option Z := None.
Definition env0 : env :=
  Env "tempfile" "1.0" 18 (fun _ => "error"%string) names (fun _ => false) faults closes
      ("tempfile: invalid option -- 'x'" +:+ nl).
(** The same, on a medium whose [close] fails. *)
Definition env_eio : env :=
  Env "tempfile" "1.0" 18 (fun _ => "error"%string) names (fun _ => false) faults (fun _ => Some 5)
      ("tempfile: invalid option -- 'x'" +:+ nl).
Definition world0 : world :=
  World (<["/tmp/abAAA.tmp"%string := File 420 "x"]> ∅) ∅ {[0%nat; 1%nat; 2%nat]} 0 0 0 [].
Definition l_ab : locals := Locals 0 None (Some "ab"%string) (Some ".tmp"%string) 0 420 0.
Definition l_ro : locals := Locals 0 (Some "/ro"%string) None None 0 o600 0.
End Demo.

(** The argument of the last option [c] among the returns of
    [getopt_long], or [d] when there is none. *)
Fixpoint last_arg (c : Z) (opts : list (Z * string)) (d : option string)
  : option string :=
  match opts with
  | [] => d
  | (c', a) :: rest => last_arg c rest (if c' =? c then Some a else d)
  end.

(** The mask a mode argument stands for, once [parsemode] took it. *)
Definition mode_of_arg (a : string) : Z := octal_value (snd (mode_body a)).

(** * ischroot (lines 1-212)

    The other program of the file: it tells, by its exit status,
    whether the process runs in a chroot.  Status 0 says yes, 1 says
    no, 2 says the detection failed. *)

Module Ischroot.

(** [strcmp]: the sign of the first difference, which is all the
    standard fixes. *)
Fixpoint strcmp (a b : string) : Z :=
  match a, b with
  | EmptyString, EmptyString => 0
  | EmptyString, String _ _ => -1
  | String _ _, EmptyString => 1
  | String x a', String y b' =>
      if Ascii.eqb x y then strcmp a' b'
      else if code x <? code y then -1 else 1
  end.

Fixpoint starts_with (needle hay : string) : bool :=
  match needle, hay with
  | EmptyString, _ => true
  | String _ _, EmptyString => false
  | String x n', String y h' => Ascii.eqb x y && starts_with n' h'
  end.

(** [strstr]: the tail of [hay] at the first occurrence of [needle],
    or NULL. *)
Fixpoint strstr (hay needle : string) : option string :=
  if starts_with needle hay then Some hay
  else match hay with
       | EmptyString => None
       | String _ r => strstr r needle
       end.

(** The fields of [struct stat] the program reads. *)
Record stat_t := Stat { st_dev : Z; st_ino : Z }.

(** The machine: the environment variables, what [stat] finds, the
    version of the build, and what [getopt_long] itself writes to
    standard error before it returns ['?'] for an option it refuses
    ([opterr] is never cleared). *)
Record host := Host {
  h_getenv : string -> option string;
  h_stat : string -> option stat_t;
  PACKAGE_VERSION : string;
  h_getopt_error : string
}.

(** What the process does to the outside, in order. *)
Inductive call :=
| CGetenv (name : string)
| CStat (path : string)
| CStderr (s : string)
| CExit (status : Z).

Inductive outcome (A : Type) : Type :=
| Ret (a : A) (tr : list call)
| Exit (status : Z) (tr : list call).
Arguments Ret {A} a tr.
Arguments Exit {A} status tr.

Definition M (A : Type) : Type := list call -> outcome A.

Definition ret {A} (a : A) : M A := fun tr => Ret a tr.

Definition bind {A B} (c : M A) (k : A -> M B) : M B :=
  fun tr =>
    match c tr with
    | Ret a tr' => k a tr'
    | Exit s tr' => Exit s tr'
    end.

Declare Scope ischroot_scope.
Delimit Scope ischroot_scope with ischroot.
Notation "'let*' x ':=' c 'in' k" := (bind c (fun x => k))
  (at level 10, x name, c at level 100, k at level 200) : ischroot_scope.
Notation "c '>>' k" := (bind c (fun _ => k))
  (at level 100, k at level 200, right associativity) : ischroot_scope.
Local Open Scope ischroot_scope.

Definition exit {A} (status : Z) : M A := fun tr => Exit status (tr ++ [CExit status]).

Definition fprintf_stderr (s : string) : M unit := fun tr => Ret tt (tr ++ [CStderr s]).

Inductive platform := Linux | Hurd | Other.

Section WithHost.
Variable H : host.

Definition getenv (name : string) : M (option string) :=
  fun tr => Ret (h_getenv H name) (tr ++ [CGetenv name]).

Definition stat (path : string) : M (option stat_t) :=
  fun tr => Ret (h_stat H path) (tr ++ [CStat path]).

Definition version_text : string :=
  "Debian ischroot, version " +:+ PACKAGE_VERSION H +:+
  "Copyright (C) 2011 Aurelien Jarno" +:+ nl +:+
  "This is free software; see the GNU General Public License version 2" +:+ nl +:+
  "or later for copying conditions.  There is NO warranty." +:+ nl.

Definition usage_text : string :=
  "Usage: ischroot [OPTION]" +:+ nl +:+
  "  -f, --default-false return false if detection fails" +:+ nl +:+
  "  -t, --default-true  return true if detection fails" +:+ nl +:+
  "  -V, --version       output version information and exit." +:+ nl +:+
  "  -h, --help          display this help and exit." +:+ nl.

Definition try_help : string :=
  "Try `ischroot --help' for more information." +:+ nl.

Definition both_defaults : string :=
  "Can't default to both true and false!" +:+ nl.

(** Lines 21-28. *)
Definition version {A} : M A := fprintf_stderr version_text >> exit 0.

(** Lines 30-38. *)
Definition usage {A} : M A := fprintf_stderr usage_text >> exit 0.

(** Lines 42-50: the conjunction, left to right, stopping at the first
    operand that is false. *)
Definition isfakechroot : M Z :=
  let* fakechroot := getenv "FAKECHROOT" in
  match fakechroot with
  | None => ret 0
  | Some f =>
      if strcmp "true" f =? 0 then
        let* base := getenv "FAKECHROOT_BASE" in
        match base with
        | None => ret 0
        | Some _ =>
            let* ldpreload := getenv "LD_PRELOAD" in
            match ldpreload with
            | None => ret 0
            | Some ld =>
                match strstr ld "libfakechroot.so" with
                | Some _ => ret 1
                | None => ret 0
                end
            end
        end
      else ret 0
  end.

(** Lines 60-70, on Linux. *)
Definition ischroot_linux : M Z :=
  let* r1 := stat "/" in
  match r1 with
  | None => ret 2
  | Some st1 =>
      let* r2 := stat "/proc/1/root" in
      match r2 with
      | None => ret 2
      | Some st2 =>
          if (st_dev st1 =? st_dev st2) && (st_ino st1 =? st_ino st2)
          then ret 1
          else ret 0
      end
  end.

(** Lines 130-140, on Hurd. *)
Definition ischroot_hurd : M Z :=
  let* r := stat "/" in
  match r with
  | None => ret 2
  | Some st => if st_dev st =? 3 then ret 1 else ret 0
  end.

(** Lines 144-147, on a system the program does not know. *)
Definition ischroot_other : M Z := ret 2.

(** The [#if] of lines 52-151; the FreeBSD variant, which walks a
    [sysctl] buffer, is not modelled. *)
Definition ischroot (p : platform) : M Z :=
  match p with
  | Linux => ischroot_linux
  | Hurd => ischroot_hurd
  | Other => ischroot_other
  end.

(** The loop of lines 160-191 over the successive returns of
    [getopt_long], up to [EOF]: [default_false] and [default_true].
    The [default] is reached by the return ['?'] alone, which
    [getopt_long] makes after it has written its own line about the
    option to standard error: that write comes first in the last
    branch. *)
Fixpoint option_loop (opts : list Z) (default_false default_true : Z) : M (Z * Z) :=
  match opts with
  | [] => ret (default_false, default_true)
  | c :: rest =>
      if c =? code "f" then option_loop rest 1 default_true
      else if c =? code "t" then option_loop rest default_false 1
      else if c =? code "h" then @usage unit >> option_loop rest default_false default_true
      else if c =? code "V" then @version unit >> option_loop rest default_false default_true
      else fprintf_stderr (h_getopt_error H) >> fprintf_stderr try_help >> exit 1
  end.

(** Lines 154-212.  The value [main] returns is the exit status. *)
Definition main (p : platform) (opts : list Z) : M Z :=
  let* d := option_loop opts 0 0 in
  let default_false := fst d in
  let default_true := snd d in
  if negb (default_false =? 0) && negb (default_true =? 0) then
    fprintf_stderr both_defaults >> fprintf_stderr try_help >> exit 1
  else
    let* fake := isfakechroot in
    let* exit_status := (if negb (fake =? 0) then ret 0 else ischroot p) in
    let exit_status :=
      if exit_status =? 2 then
        let s1 := if negb (default_true =? 0) then 0 else exit_status in
        if negb (default_false =? 0) then 1 else s1
      else exit_status in
    ret exit_status.

End WithHost.

(** The status the process ends with. *)
Definition status {A} (o : outcome A) (of_value : A -> Z) : Z :=
  match o with
  | Ret a _ => of_value a
  | Exit s _ => s
  end.

Definition calls {A} (o : outcome A) : list call :=
  match o with
  | Ret _ tr => tr
  | Exit _ tr => tr
  end.

Definition is_probe (c : call) : bool :=
  match c with
  | CGetenv _ | CStat _ => true
  | _ => false
  end.

Definition is_stat (c : call) : bool :=
  match c with
  | CStat _ => true
  | _ => false
  end.

(** The messages on standard error. *)
Fixpoint stderr_of (tr : list call) : list string :=
  match tr with
  | CStderr s :: tr' => s :: stderr_of tr'
  | _ :: tr' => stderr_of tr'
  | [] => []
  end.

(** The options are flags only: [-f] and [-t]. *)
Definition only_flags (opts : list Z) : bool :=
  forallb (fun c => (c =? code "f") || (c =? code "t")) opts.

Definition has_flag (c : ascii) (opts : list Z) : bool :=
  existsb (fun x => x =? code c) opts.

(** The environment of fakechroot, as [isfakechroot] asks for it. *)
Definition in_fakechroot (H : host) : Prop :=
  h_getenv H "FAKECHROOT" = Some "true"%string /\
  is_Some (h_getenv H "FAKECHROOT_BASE") /\
  exists a b, h_getenv H "LD_PRELOAD" = Some (a +:+ "libfakechroot.so" +:+ b).

(** A machine with three variables set for fakechroot, on which the
    root directory and the root of process 1 are the same file. *)
Definition fake_host : host :=
  Host (fun n => if String.eqb n "FAKECHROOT" then Some "true"
                 else if String.eqb n "FAKECHROOT_BASE" then Some "/srv/chroot"
                 else if String.eqb n "LD_PRELOAD"
                      then Some "/usr/lib/fakechroot/libfakechroot.so"
                 else None)
       (fun _ => Some (Stat 2049 2))
       "4.4" ("ischroot: invalid option -- 'x'" +:+ nl).

(** A machine inside a chroot: the two roots differ. *)
Definition jail_host : host :=
  Host (fun _ => None)
       (fun p => if String.eqb p "/" then Some (Stat 2049 131073) else Some (Stat 2049 2))
       "4.4" ("ischroot: invalid option -- 'x'" +:+ nl).

(** A machine on which [/proc] is not mounted. *)
Definition blind_host : host :=
  Host (fun _ => None)
       (fun p => if String.eqb p "/" then Some (Stat 2049 2) else None)
       "4.4" ("ischroot: invalid option -- 'x'" +:+ nl).

End Ischroot.

(** * Properties *)

Example parse_0644 : parsemode "0644" o600 = (0, 420).
Proof. reflexivity. Qed.
Example parse_999 : parsemode "999" o600 = (1, o600).
Proof. reflexivity. Qed.
Example parse_10000 : parsemode "10000" o600 = (1, o600).
Proof. reflexivity. Qed.
Example parse_neg : parsemode "-1" o600 = (1, o600).
Proof. reflexivity. Qed.
Example parse_space_only : parsemode " " o600 = (1, o600).
Proof. reflexivity. Qed.
Example parse_plus : parsemode "+644" o600 = (0, 420).
Proof. reflexivity. Qed.
Example parse_empty : parsemode "" o600 = (0, 0).
Proof. reflexivity. Qed.

(** [tempfile --prefix ab --suffix .tmp --directory /tmp --mode 0644]:
    the first candidate is taken, the second is created with mode 0644
    under umask 022 and reported on one line; status 0, nothing left on
    the heap. *)
Example run_prefix_suffix :
  let o := main Demo.env0
             [(code "p", "ab"%string); (code "s", ".tmp"%string);
              (code "d", "/tmp"%string); (code "m", "0644"%string)] 2 Demo.world0 in
  (fun r => (r.1, written 1 (trace r.2), fs r.2 !! "/tmp/abBBB.tmp"%string, heap r.2)) <$> final o
  = Some (0, ["/tmp/abBBB.tmp" +:+ nl], Some (File 420 EmptyString), ∅).
Proof. vm_compute. reflexivity. Qed.

(** [tempfile --mode 999]: status 1, two lines on standard error, no
    file created. *)
Example run_mode_999 :
  let o := main Demo.env0 [(code "m", "999"%string)] 2 Demo.world0 in
  (fun r => (r.1, written 2 (trace r.2), opens (trace r.2))) <$> final o
  = Some (1, [invalid_mode "999"; try_help Demo.env0], []) /\
  (fun r => fs r.2) <$> final o = Some (fs Demo.world0).
Proof. split; vm_compute; reflexivity. Qed.

(** [tempfile --name /tmp/abAAA.tmp], which exists: status 1, the file
    as it was. *)
Example run_name_exists :
  let o := main Demo.env0 [(code "n", "/tmp/abAAA.tmp"%string)] 0 Demo.world0 in
  (fun r => (r.1, written 1 (trace r.2), fs r.2 !! "/tmp/abAAA.tmp"%string)) <$> final o
  = Some (1, [], Some (File 420 "x")).
Proof. vm_compute. reflexivity. Qed.

(** With fuel for one candidate only, the model of the first run gives
    up where the program would go on. *)
Example run_out_of_fuel :
  main Demo.env0 [(code "p", "ab"%string); (code "s", ".tmp"%string)] 1 Demo.world0 = Timeout.
Proof. vm_compute. reflexivity. Qed.


(** ** The mode parser *)

Section ParsemodeFacts.

Ltac zcases :=
  repeat match goal with
  | H : context [(?a >? ?b)%Z] |- _ => rewrite (Z.gtb_ltb a b) in H
  | |- context [(?a >? ?b)%Z] => rewrite (Z.gtb_ltb a b)
  | H : context [(?a <=? ?b)%Z] |- _ => destruct (Z.leb_spec a b); simpl in H
  | H : context [(?a <? ?b)%Z] |- _ => destruct (Z.ltb_spec a b); simpl in H
  | H : context [(?a =? ?b)%Z] |- _ => destruct (Z.eqb_spec a b); simpl in H
  | |- context [(?a <=? ?b)%Z] => destruct (Z.leb_spec a b); simpl
  | |- context [(?a <? ?b)%Z] => destruct (Z.ltb_spec a b); simpl
  | |- context [(?a =? ?b)%Z] => destruct (Z.eqb_spec a b); simpl
  end;
  try discriminate; try lia; try reflexivity.

Lemma octal_not_space c : is_octal c = true -> isspace c = false.
Proof. unfold is_octal, isspace. zcases. Qed.

Lemma octal_no_sign c r : is_octal c = true -> take_sign (String c r) = (false, String c r).
Proof. unfold is_octal, take_sign. zcases. Qed.

Lemma octal_digit_value c :
  is_octal c = true -> digit_value c = Some (code c - 48) /\ code c - 48 < 8.
Proof. unfold is_octal, digit_value. zcases. split; [reflexivity | lia]. Qed.

Lemma non_octal_digit_value c d :
  is_octal c = false -> digit_value c = Some d -> 8 <= d.
Proof.
  unfold is_octal, digit_value. intros Hc Hd. zcases; inversion Hd; lia.
Qed.

Lemma octal_value_from_nonneg s : forall acc, 0 <= acc -> all_octal s = true -> acc <= octal_value_from acc s.
Proof.
  induction s as [|c r IH]; intros acc Hacc Hs; simpl in *; [lia|].
  apply andb_prop in Hs as [Hc Hr].
  assert (0 <= code c - 48) by (unfold is_octal in Hc; zcases).
  specialize (IH (acc * 8 + (code c - 48)) ltac:(lia) Hr). lia.
Qed.

(** On a string of octal digits the scan consumes everything. *)
Lemma scan_all_octal s : forall acc any,
  all_octal s = true ->
  scan_digits 8 s acc any = (octal_value_from acc s, any || negb (at_nul s), EmptyString).
Proof.
  induction s as [|c r IH]; intros acc any Hs; simpl in *.
  - now rewrite orb_false_r.
  - apply andb_prop in Hs as [Hc Hr].
    destruct (octal_digit_value c Hc) as [-> Hlt].
    destruct (Z.ltb_spec (code c - 48) 8); [|lia].
    rewrite IH by assumption. now rewrite !orb_true_r.
Qed.

(** Otherwise it stops in front of a character. *)
Lemma scan_stops s : forall acc any,
  all_octal s = false ->
  at_nul (snd (scan_digits 8 s acc any)) = false.
Proof.
  induction s as [|c r IH]; intros acc any Hs; simpl in *; [discriminate|].
  destruct (is_octal c) eqn:Hc; simpl in Hs.
  - destruct (octal_digit_value c Hc) as [-> Hlt].
    destruct (Z.ltb_spec (code c - 48) 8); [|lia]. now apply IH.
  - destruct (digit_value c) as [d|] eqn:Hd; [|reflexivity].
    pose proof (non_octal_digit_value c d Hc Hd).
    destruct (Z.ltb_spec d 8); [lia | reflexivity].
Qed.

Lemma mode_body_octal s : octal_string s = true -> mode_body s = (false, s).
Proof.
  unfold octal_string, mode_body. destruct s as [|c r]; [discriminate|].
  simpl. intros Hs. apply andb_prop in Hs as [Hc _].
  rewrite (octal_not_space c Hc). now apply octal_no_sign.
Qed.

Lemma parsemode_accepts s m neg d :
  mode_body s = (neg, d) ->
  octal_string d = true ->
  (if neg then octal_value d = 0 else octal_value d <= o7777) ->
  parsemode s m = (0, octal_value d).
Proof.
  unfold parsemode, strtol, mode_body, octal_string, octal_value, o7777.
  intros -> Hd Hv. apply andb_prop in Hd as [Hne Hoct].
  rewrite (scan_all_octal d 0 false Hoct). rewrite Hne. simpl.
  pose proof (octal_value_from_nonneg d 0 ltac:(lia) Hoct) as Hpos.
  assert (Hc : clamp_long (if neg then - octal_value_from 0 d else octal_value_from 0 d)
               = octal_value_from 0 d).
  { unfold clamp_long, LONG_MIN, LONG_MAX. destruct neg; [rewrite Hv|]; zcases. }
  rewrite Hc. unfold mode_t_cast.
  destruct (Z.ltb_spec (octal_value_from 0 d) 0); [lia|].
  rewrite Z.gtb_ltb. destruct (Z.ltb_spec 4095 (octal_value_from 0 d)).
  - destruct neg; lia.
  - simpl. rewrite Z.mod_small; [reflexivity|]. lia.
Qed.

Lemma parsemode_rejects s m neg d :
  at_nul s = false ->
  mode_body s = (neg, d) ->
  octal_string d = false \/
  (if neg then octal_value d <> 0 else o7777 < octal_value d) ->
  parsemode s m = (1, m).
Proof.
  unfold parsemode, strtol, mode_body, octal_string, octal_value, o7777.
  intros Hs -> Hd.
  destruct (all_octal d) eqn:Hoct.
  - rewrite (scan_all_octal d 0 false Hoct). simpl.
    destruct (at_nul d) eqn:Hne; simpl.
    + now rewrite Hs.
    + destruct Hd as [Hd|Hd]; [discriminate|].
      pose proof (octal_value_from_nonneg d 0 ltac:(lia) Hoct) as Hpos.
      unfold clamp_long, LONG_MIN, LONG_MAX. destruct neg; zcases.
  - pose proof (scan_stops d 0 false Hoct) as Hstop.
    destruct (scan_digits 8 d 0 false) as [[v any] rest]. simpl in Hstop.
    destruct any; [rewrite Hstop | rewrite Hs]; reflexivity.
Qed.

End ParsemodeFacts.

(** ** Facts about the environment's calls *)

Arguments bind {A B} c k w /.
Arguments ret {A} a w /.
Arguments load p w /.
Arguments deref p w /.
Arguments free p w /.
Arguments get_errno w /.
Arguments write fd s w /.
Arguments exit {A} status w /.
Arguments store p s w /.
Arguments perror E s w /.
Arguments puts s w /.
Arguments syserror E {A} fx w /.
Arguments strcpy dst src w /.
Arguments strcat dst src w /.

Ltac run :=
  cbn [bind ret load deref free get_errno write exit store perror puts
       syserror strcpy strcat
       fs heap fds errno ntempnam nalloc trace
       set_fs set_heap set_fds set_errno tick_tempnam tick_alloc log
       name dir pfx sfx filename mode fd
       set_name set_dir set_pfx set_sfx set_filename set_mode set_fd
       default from_option id negb andb orb fst snd].

Tactic Notation "run" "in" hyp(H) :=
  cbn [bind ret load deref free get_errno write exit store perror puts
       syserror strcpy strcat
       fs heap fds errno ntempnam nalloc trace
       set_fs set_heap set_fds set_errno tick_tempnam tick_alloc log
       name dir pfx sfx filename mode fd
       set_name set_dir set_pfx set_sfx set_filename set_mode set_fd
       default from_option id negb andb orb fst snd] in H.

Section CallFacts.
Variable E : env.

Lemma usage_0 {A} w :
  usage E (A := A) 0 w = Exit 0 (log (EvExit 0) (log (EvWrite 1 (usage_text E)) w)).
Proof. reflexivity. Qed.

Lemma usage_1 {A} w :
  usage E (A := A) 1 w = Exit 1 (log (EvExit 1) (log (EvWrite 2 (try_help E)) w)).
Proof. reflexivity. Qed.

Lemma fresh_addr_nz w : (fresh_addr w =? 0)%N = false.
Proof.
  apply N.eqb_neq. intros H.
  pose proof (is_fresh ({[0%N]} ∪ dom (heap w))) as Hf.
  unfold fresh_addr in H. rewrite H in Hf. set_solver.
Qed.

Lemma fresh_addr_free w : heap w !! fresh_addr w = None.
Proof.
  apply not_elem_of_dom.
  pose proof (is_fresh ({[0%N]} ∪ dom (heap w))) as Hf.
  unfold fresh_addr. set_solver.
Qed.

Lemma tempnam_some d p w s :
  tempnam_name E (ntempnam w) d p = Some s ->
  let w1 := log (EvTempnam d p (Some s)) (tick_tempnam w) in
  tempnam E d p w = Ret (fresh_addr w1) (set_heap (<[fresh_addr w1 := s]> (heap w)) w1).
Proof. intros H. unfold tempnam. rewrite H. reflexivity. Qed.

Lemma tempnam_none d p w :
  tempnam_name E (ntempnam w) d p = None ->
  tempnam E d p w = Ret 0%N (set_errno ENOMEM (log (EvTempnam d p None) (tick_tempnam w))).
Proof. intros H. unfold tempnam. rewrite H. reflexivity. Qed.

Lemma malloc_ok w :
  alloc_fails E (nalloc w) = false ->
  malloc E w = Ret (fresh_addr w)
                   (log (EvAlloc (fresh_addr w))
                        (set_heap (<[fresh_addr w := EmptyString]> (heap w)) (tick_alloc w))).
Proof. intros H. unfold malloc. rewrite H. reflexivity. Qed.

Lemma malloc_null w :
  alloc_fails E (nalloc w) = true ->
  malloc E w = Ret 0%N (log (EvAlloc 0) (set_errno ENOMEM (tick_alloc w))).
Proof. intros H. unfold malloc. rewrite H. reflexivity. Qed.

Lemma sys_open_excl_fail path m w e :
  excl_errno E path w = Some e ->
  sys_open E path open_flags m w
  = Ret (-1) (log (EvOpen path open_flags m (-1)) (set_errno e w)).
Proof.
  unfold excl_errno, sys_open. destruct (open_fault E path) as [e'|].
  - now intros [= ->].
  - destruct (fs w !! path); [|discriminate]. now intros [= <-].
Qed.

Lemma sys_open_excl_ok path m w :
  excl_errno E path w = None ->
  sys_open E path open_flags m w
  = Ret (Z.of_nat (fresh_fd w))
        (log (EvOpen path open_flags m (Z.of_nat (fresh_fd w)))
             (set_fds ({[fresh_fd w]} ∪ fds w)
                (set_fs (<[path := File (Z.land m (Z.lnot (umask E))) EmptyString]> (fs w)) w))).
Proof.
  unfold excl_errno, sys_open. destruct (open_fault E path) as [e'|]; [discriminate|].
  destruct (fs w !! path); [discriminate|]. reflexivity.
Qed.

Lemma excl_errno_none path w : excl_errno E path w = None -> fs w !! path = None.
Proof.
  unfold excl_errno. destruct (open_fault E path); [discriminate|].
  now destruct (fs w !! path).
Qed.

(** [close] returns 0 or -1, logs itself and touches neither files nor
    heap. *)
Lemma sys_close_cases d w :
  exists r w1, sys_close E d w = Ret r w1 /\ (r = 0 \/ r = -1) /\
    trace w1 = trace w ++ [EvClose d r] /\ fs w1 = fs w /\ heap w1 = heap w.
Proof.
  unfold sys_close.
  destruct ((d <? 0) || negb (bool_decide (Z.to_nat d ∈ fds w))).
  - eexists _, _. split; [reflexivity|]. run. auto.
  - destruct (close_fault E d); eexists _, _; (split; [reflexivity|]); run; auto.
Qed.

End CallFacts.

(** ** One candidate of the generated-name loop *)

Section AttemptFacts.
Variable E : env.

Lemma compose_plain nm l w : sfx l = None -> compose_filename E nm l w = Ret nm w.
Proof. intros H. unfold compose_filename. now rewrite H. Qed.

Lemma compose_null nm l w s :
  sfx l = Some s -> alloc_fails E (nalloc w) = true ->
  compose_filename E nm l w
  = Exit 1 (log (EvExit 1) (log (EvWrite 2 ("malloc: " +:+ strerror E ENOMEM +:+ nl))
                 (log (EvAlloc 0) (set_errno ENOMEM (tick_alloc w))))).
Proof.
  intros Hs Ha. unfold compose_filename. rewrite Hs. run.
  rewrite (malloc_null E w Ha). run. reflexivity.
Qed.

Lemma compose_suffix nm l w s base :
  sfx l = Some s -> alloc_fails E (nalloc w) = false ->
  heap w !! nm = Some base ->
  compose_filename E nm l w
  = Ret (fresh_addr w)
        (set_heap (<[fresh_addr w := base +:+ s]> (heap w))
           (log (EvAlloc (fresh_addr w)) (tick_alloc w))).
Proof.
  intros Hs Ha Hn. unfold compose_filename. rewrite Hs. run.
  rewrite (malloc_ok E w Ha). run. rewrite fresh_addr_nz. run.
  assert (Hne : fresh_addr w <> nm).
  { intros <-. rewrite fresh_addr_free in Hn. discriminate. }
  rewrite (lookup_insert_ne _ _ nm _ Hne), Hn. run.
  rewrite lookup_insert_eq. run. rewrite !insert_insert_eq. reflexivity.
Qed.


Lemma create_generated_S n l :
  create_generated E (S n) l =
  (let* nm := tempnam E (dir l) (pfx l) in
      if (nm =? 0)%N then syserror E "tempnam"
      else
        let* fn := compose_filename E nm l in
        let* path := load fn in
        let* d := sys_open E path open_flags (mode l) in
        if d <? 0 then
          let* e := get_errno in
          if e =? EEXIST then
            (if negb (nm =? fn)%N then free nm else ret tt) >>
            free fn >>
            create_generated E n l
          else syserror E "open"
        else ret (set_name nm (set_filename fn (set_fd d l)))).
Proof. reflexivity. Qed.

Lemma attempt n l w :
  match tempnam_name E (ntempnam w) (dir l) (pfx l) with
  | None =>
      exists w', create_generated E (S n) l w = Exit 1 w' /\ fs w' = fs w /\ extends inert w w'
  | Some base =>
      if bool_decide (is_Some (sfx l)) && alloc_fails E (nalloc w)
      then exists w', create_generated E (S n) l w = Exit 1 w' /\ fs w' = fs w /\ extends inert w w'
      else
        let path := candidate base l in
        match excl_errno E path w with
        | Some e =>
            if e =? EEXIST
            then exists w' mid frees,
                create_generated E (S n) l w = create_generated E n l w' /\
                fs w' = fs w /\ heap w' = heap w /\ fds w' = fds w /\
                ntempnam w' = S (ntempnam w) /\
                trace w' = trace w ++ EvTempnam (dir l) (pfx l) (Some base) :: mid ++
                                      EvOpen path open_flags (mode l) (-1) :: frees /\
                forallb is_alloc mid = true /\ forallb is_free frees = true
            else exists w' mid,
                create_generated E (S n) l w = Exit 1 w' /\
                fs w' = fs w /\ ntempnam w' = S (ntempnam w) /\
                trace w' = trace w ++ EvTempnam (dir l) (pfx l) (Some base) :: mid ++
                             [EvOpen path open_flags (mode l) (-1);
                              EvWrite 2 ("open: " +:+ strerror E e +:+ nl); EvExit 1] /\
                forallb is_alloc mid = true
        | None =>
            exists l' w' mid,
              create_generated E (S n) l w = Ret l' w' /\
              0 <= fd l' /\ mode l' = mode l /\ sfx l' = sfx l /\
              deref (filename l') w' = path /\
              fs w !! path = None /\
              fs w' = <[path := File (Z.land (mode l) (Z.lnot (umask E))) EmptyString]> (fs w) /\
              trace w' = trace w ++ EvTempnam (dir l) (pfx l) (Some base) :: mid ++
                           [EvOpen path open_flags (mode l) (fd l')] /\
              forallb is_alloc mid = true
        end
  end.
Proof.
  remember (create_generated E (S n) l w) as R eqn:HR.
  rewrite create_generated_S in HR.
  destruct (tempnam_name E (ntempnam w) (dir l) (pfx l)) as [base|] eqn:Ht.
  2:{ run in HR. rewrite (tempnam_none E _ _ _ Ht) in HR. run in HR.
      eexists. split; [exact HR|]. split; [reflexivity|].
      eexists. run. rewrite <- !app_assoc. split; reflexivity. }
  pose proof (tempnam_some E _ _ _ _ Ht) as Hrun. cbv zeta in Hrun.
  set (w1 := log (EvTempnam (dir l) (pfx l) (Some base)) (tick_tempnam w)) in *.
  set (p := fresh_addr w1) in *.
  set (w2 := set_heap (<[p := base]> (heap w)) w1) in *.
  assert (Hp : heap w2 !! p = Some base) by (subst w2; run; apply lookup_insert_eq).
  assert (Hpz : (p =? 0)%N = false) by apply fresh_addr_nz.
  assert (Hfree : heap w !! p = None) by apply (fresh_addr_free w1).
  run in HR. rewrite Hrun in HR. run in HR. rewrite Hpz in HR.
  destruct (sfx l) as [s|] eqn:Hs.
  - (* a suffix is configured *)
    rewrite bool_decide_eq_true_2 by eauto. rewrite andb_true_l.
    change (nalloc w) with (nalloc w2).
    destruct (alloc_fails E (nalloc w2)) eqn:Ha.
    + run in HR. rewrite (compose_null p l w2 s Hs Ha) in HR.
      eexists. split; [exact HR|]. split; [reflexivity|].
      eexists. subst w2 w1. run. rewrite <- !app_assoc. split; reflexivity.
    + run in HR. rewrite (compose_suffix p l w2 s base Hs Ha Hp) in HR.
      set (q := fresh_addr w2) in *.
      assert (Hq : heap w2 !! q = None) by apply fresh_addr_free.
      assert (Hqz : (q =? 0)%N = false) by apply fresh_addr_nz.
      assert (Hqp : q <> p) by (intros Heq; rewrite Heq in Hq; congruence).
      assert (Hpq : (p =? q)%N = false) by (apply N.eqb_neq; congruence).
      run in HR. rewrite lookup_insert_eq in HR. run in HR.
      unfold candidate. rewrite Hs.
      destruct (excl_errno E (base +:+ s) w) as [e|] eqn:He.
      * erewrite sys_open_excl_fail in HR by exact He. run in HR.
        change (-1 <? 0) with true in HR. run in HR.
        destruct (e =? EEXIST) eqn:Hee.
        -- run in HR. rewrite Hpq in HR. run in HR. rewrite Hpz in HR. run in HR.
           rewrite Hqz in HR. run in HR.
           assert (Hq' : heap w !! q = None).
           { subst w2. run in Hq. now rewrite lookup_insert_ne in Hq by congruence. }
           eexists _, [_], [_; _]. split; [exact HR|]. run.
           split; [reflexivity|]. split.
           { subst w2. run.
             rewrite delete_insert_ne by congruence.
             rewrite !delete_insert_eq. rewrite (delete_id (heap w) p) by exact Hfree.
             now apply delete_id. }
           split; [reflexivity|]. split; [reflexivity|].
           split; [subst w2 w1; run; now rewrite <- !app_assoc|]. split; reflexivity.
        -- run in HR. eexists _, [_]. split; [exact HR|]. run.
           split; [reflexivity|]. split; [reflexivity|]. split; [subst w2 w1; run; now rewrite <- !app_assoc|]. reflexivity.
      * erewrite sys_open_excl_ok in HR by exact He. run in HR.
        assert (Hfd : (Z.of_nat (fresh_fd (set_heap (<[q:=base +:+ s]> (heap w2))
                        (log (EvAlloc q) (tick_alloc w2)))) <? 0) = false)
          by (apply Z.ltb_ge; lia).
        rewrite Hfd in HR. run in HR.
        eexists _, _, [_]. split; [exact HR|]. run.
        split; [lia|]. split; [reflexivity|]. split; [exact Hs|].
        split; [now rewrite lookup_insert_eq|].
        split; [exact (excl_errno_none E _ _ He)|].
        split; [reflexivity|]. split; [subst w2 w1; run; now rewrite <- !app_assoc|]. reflexivity.
  - (* no suffix *)
    rewrite bool_decide_eq_false_2 by (intros [? ?]; discriminate).
    rewrite andb_false_l.
    run in HR. rewrite (compose_plain p l w2 Hs) in HR. run in HR.
    rewrite Hp in HR. run in HR.
    unfold candidate. rewrite Hs.
    destruct (excl_errno E base w) as [e|] eqn:He.
    + erewrite sys_open_excl_fail in HR by exact He. run in HR.
      change (-1 <? 0) with true in HR. run in HR.
      destruct (e =? EEXIST) eqn:Hee.
      * run in HR. rewrite N.eqb_refl in HR. run in HR. rewrite Hpz in HR. run in HR.
        eexists _, [], [_]. split; [exact HR|]. run.
        split; [reflexivity|]. split.
        { subst w2. run. rewrite delete_insert_eq. now apply delete_id. }
        split; [reflexivity|]. split; [reflexivity|].
        split; [subst w2 w1; run; now rewrite <- !app_assoc|]. split; reflexivity.
      * run in HR. eexists _, []. split; [exact HR|]. run.
        split; [reflexivity|]. split; [reflexivity|]. split; [subst w2 w1; run; now rewrite <- !app_assoc|]. reflexivity.
    + erewrite sys_open_excl_ok in HR by exact He. run in HR.
      assert (Hfd : (Z.of_nat (fresh_fd w2) <? 0) = false) by (apply Z.ltb_ge; lia).
      rewrite Hfd in HR. run in HR.
      eexists _, _, []. split; [exact HR|]. run.
      split; [lia|]. split; [reflexivity|]. split; [exact Hs|].
      split; [now rewrite Hp|].
      split; [exact (excl_errno_none E _ _ He)|].
      split; [reflexivity|]. split; [subst w2 w1; run; now rewrite <- !app_assoc|]. reflexivity.
Qed.
End AttemptFacts.

(** ** The phases of [main] *)

Ltac list_eq :=
  repeat (rewrite <- app_assoc || rewrite <- app_comm_cons); reflexivity.

Section PhaseFacts.
Variable E : env.

Lemma extends_refl P w : extends P w w.
Proof. exists []. now rewrite app_nil_r. Qed.

Lemma extends_trans P w1 w2 w3 : extends P w1 w2 -> extends P w2 w3 -> extends P w1 w3.
Proof.
  intros [e1 [H1 F1]] [e2 [H2 F2]]. exists (e1 ++ e2).
  rewrite H2, H1, <- app_assoc, forallb_app, F1, F2. auto.
Qed.

Lemma extends_weaken (P Q : event -> bool) w w' :
  (forall e, P e = true -> Q e = true) -> extends P w w' -> extends Q w w'.
Proof.
  intros HPQ [evs [H F]]. exists evs. split; [exact H|].
  rewrite forallb_forall in *. auto.
Qed.

Lemma forallb_weaken (P Q : event -> bool) evs :
  (forall e, P e = true -> Q e = true) -> forallb P evs = true -> forallb Q evs = true.
Proof. intros HPQ. rewrite !forallb_forall. auto. Qed.

Lemma free_quiet e : is_free e = true -> quiet e = true.
Proof. now destruct e. Qed.

Lemma alloc_quiet e : is_alloc e = true -> quiet e = true.
Proof. now destruct e. Qed.

Lemma quiet_inert e : quiet e = true -> inert e = true.
Proof. unfold quiet. intros H. now apply andb_prop in H as [H%andb_prop _]. Qed.

Ltac solve_ext :=
  split; [reflexivity|];
  first [ apply extends_refl
        | eexists; run; rewrite <- ?app_assoc; split; reflexivity ].

Lemma option_case_m s l :
  option_case E (code "m") s l =
  (let '(r, m) := parsemode s (mode l) in
   if negb (r =? 0)
   then write 2 (invalid_mode s) >> usage E 1
   else ret (set_mode m l)).
Proof. reflexivity. Qed.

Lemma option_case_cases c a l w :
  match option_case E c a l w with
  | Ret l' w' => fs w' = fs w /\ extends is_alloc w w'
  | Exit st w' => fs w' = fs w /\ extends inert w w'
  | Timeout => False
  end.
Proof.
  unfold option_case.
  repeat match goal with
  | |- context [if ?c =? ?k then _ else _] => destruct (c =? k)
  end; run; rewrite ?usage_0, ?usage_1; try solve_ext.
  - destruct (parsemode a (mode l)) as [r m]. destruct (r =? 0); run; rewrite ?usage_1; solve_ext.
  - unfold strdup. run. unfold malloc. destruct (alloc_fails E (nalloc w)); run.
    + solve_ext.
    + rewrite fresh_addr_nz. run. rewrite fresh_addr_nz. run. solve_ext.
Qed.

Lemma getopt_loop_cases opts : forall l w,
  match getopt_loop E opts l w with
  | Ret l' w' => fs w' = fs w /\ extends is_alloc w w'
  | Exit st w' => fs w' = fs w /\ extends inert w w'
  | Timeout => False
  end.
Proof.
  induction opts as [|[c a] rest IH]; intros l w; simpl.
  - split; [reflexivity | apply extends_refl].
  - pose proof (option_case_cases c a l w) as H1.
    destruct (option_case E c a l w) as [l1 w1|st w1|]; [|exact H1|exact H1].
    specialize (IH l1 w1). destruct H1 as [Hf1 Hx1].
    destruct (getopt_loop E rest l1 w1) as [l2 w2|st w2|]; [| |exact IH];
      destruct IH as [Hf2 Hx2]; (split; [congruence|]).
    + eapply extends_trans; eauto.
    + eapply extends_trans; [|exact Hx2].
      eapply extends_weaken; [|exact Hx1]. intros e He. now destruct e.
Qed.

Lemma getopt_loop_app pre post : forall l w l1 w1,
  getopt_loop E pre l w = Ret l1 w1 ->
  getopt_loop E (pre ++ post) l w = getopt_loop E post l1 w1.
Proof.
  induction pre as [|[c a] rest IH]; intros l w l1 w1 H; simpl in *.
  - now inversion H.
  - destruct (option_case E c a l w) as [l2 w2|st w2|]; try discriminate.
    now apply IH.
Qed.


Lemma create_named_cases l w F :
  deref (name l) w = F ->
  match excl_errno E F w with
  | Some e =>
      create_named E l w
      = Exit 1 (log (EvExit 1)
                 (log (EvWrite 2 ("open: " +:+ strerror E e +:+ nl))
                    (log (EvOpen F open_flags (mode l) (-1)) (set_errno e w))))
  | None =>
      create_named E l w
      = Ret (set_filename (name l) (set_fd (Z.of_nat (fresh_fd w)) l))
            (log (EvOpen F open_flags (mode l) (Z.of_nat (fresh_fd w)))
               (set_fds ({[fresh_fd w]} ∪ fds w)
                  (set_fs (<[F := File (Z.land (mode l) (Z.lnot (umask E))) EmptyString]> (fs w)) w)))
  end.
Proof.
  intros HF. unfold create_named. cbn [bind load]. rewrite HF.
  destruct (excl_errno E F w) as [e|] eqn:He.
  - rewrite (sys_open_excl_fail E F (mode l) w e He). reflexivity.
  - rewrite (sys_open_excl_ok E F (mode l) w He).
    assert (Hfd : (Z.of_nat (fresh_fd w) <? 0) = false) by (apply Z.ltb_ge; lia).
    now rewrite Hfd.
Qed.

(** The epilogue: close, then report and release, or fail. *)
Lemma finish_cases l w :
  exists w', fs w' = fs w /\
    ((finish E l w = Exit 0 w' /\
      exists frees, forallb is_free frees = true /\
        trace w' = trace w ++ EvClose (fd l) 0 ::
                     EvWrite 1 (deref (filename l) w +:+ nl) :: frees ++ [EvExit 0]) \/
     (finish E l w = Exit 1 w' /\
      exists msg,
        trace w' = trace w ++ [EvClose (fd l) (-1); EvWrite 2 msg; EvExit 1])).
Proof.
  destruct (sys_close_cases E (fd l) w) as (r & w1 & Hc & Hr & Ht & Hf & Hh).
  unfold finish. run. rewrite Hc.
  destruct Hr as [-> | ->].
  - change (negb (0 =? 0)) with false. run. rewrite Hh.
    destruct (name l =? filename l)%N; run;
      repeat match goal with
      | |- context [(?p =? 0)%N] => destruct (p =? 0)%N; run
      end;
      lazymatch goal with
      | |- exists w', _ /\ ((Exit 0 ?W = _ /\ _) \/ _) => exists W
      end; run; (split; [exact Hf|]); left; (split; [reflexivity|]); rewrite Ht;
      rewrite <- ?app_assoc; simpl;
      first [ refine (ex_intro _ [] (conj eq_refl eq_refl))
            | refine (ex_intro _ [_] (conj _ eq_refl)); reflexivity
            | refine (ex_intro _ [_; _] (conj _ eq_refl)); reflexivity ].
  - change (negb (-1 =? 0)) with true. run.
    eexists. split; [|right; split; [reflexivity|]]; run; [exact Hf|].
    rewrite Ht, <- !app_assoc. eexists. reflexivity.
Qed.

(** The generated-name loop, whatever the fuel. *)
Lemma create_generated_cases n : forall l w,
  match create_generated E n l w with
  | Ret l' w' =>
      exists base pre mid,
        trace w' = trace w ++ (pre ++ EvTempnam (dir l) (pfx l) (Some base) :: mid) ++
                     [EvOpen (candidate base l) open_flags (mode l) (fd l')] /\
        forallb quiet pre = true /\ forallb is_alloc mid = true /\
        0 <= fd l' /\ mode l' = mode l /\ sfx l' = sfx l /\
        deref (filename l') w' = candidate base l /\
        fs w !! candidate base l = None /\
        fs w' = <[candidate base l :=
                    File (Z.land (mode l) (Z.lnot (umask E))) EmptyString]> (fs w)
  | Exit st w' => st = 1 /\ fs w' = fs w /\ extends inert w w'
  | Timeout => True
  end.
Proof.
  induction n as [|n IH]; intros l w; [exact I|].
  pose proof (attempt E n l w) as H.
  destruct (tempnam_name E (ntempnam w) (dir l) (pfx l)) as [base|].
  2:{ destruct H as (w' & -> & Hf & Hx). auto. }
  destruct (bool_decide (is_Some (sfx l)) && alloc_fails E (nalloc w)).
  { destruct H as (w' & -> & Hf & Hx). auto. }
  cbv zeta in H.
  destruct (excl_errno E (candidate base l) w) as [e|].
  - destruct (e =? EEXIST).
    + destruct H as (w' & mid & frees & -> & Hf & Hh & Hd & Hn & Ht & Hm & Hfr).
      assert (Hq1 : forallb quiet (EvTempnam (dir l) (pfx l) (Some base) :: mid ++
                       EvOpen (candidate base l) open_flags (mode l) (-1) :: frees) = true).
      { simpl. rewrite forallb_app. simpl.
        rewrite (forallb_weaken _ _ _ alloc_quiet Hm).
        now rewrite (forallb_weaken _ _ _ free_quiet Hfr). }
      specialize (IH l w').
      destruct (create_generated E n l w') as [l2 w2|st w2|]; [| |exact I].
      * destruct IH as (base2 & pre & mid2 & Ht2 & Hq & Hm2 & Hfd & Hmo & Hs & Hd2 & Hnone & Hfs).
        exists base2, ((EvTempnam (dir l) (pfx l) (Some base) :: mid ++
                       EvOpen (candidate base l) open_flags (mode l) (-1) :: frees) ++ pre), mid2.
        rewrite Hf in *. repeat split; auto.
        -- rewrite Ht2, Ht. list_eq.
        -- now rewrite forallb_app, Hq1, Hq.
      * destruct IH as (-> & Hfs & Hx). rewrite Hf in Hfs. repeat split; auto.
        eapply extends_trans; [|exact Hx]. eexists. split; [exact Ht|].
        exact (forallb_weaken _ _ _ quiet_inert Hq1).
    + destruct H as (w' & mid & -> & Hf & Hn & Ht & Hm). repeat split; auto.
      eexists. split; [exact Ht|]. simpl. rewrite forallb_app. simpl.
      rewrite (forallb_weaken _ _ _ (fun e He => quiet_inert e (alloc_quiet e He)) Hm).
      reflexivity.
  - destruct H as (l' & w' & mid & -> & Hfd & Hmo & Hs & Hd & Hnone & Hfs & Ht & Hm).
    exists base, [], mid. repeat split; auto.
Qed.

(** Every finished run of [main]: either nothing was created, or one
    file was, and what follows its creation is the epilogue. *)
Lemma main_cases opts n w :
  match main E opts n w with
  | Ret _ _ => False
  | Timeout => True
  | Exit st w' =>
      (fs w' = fs w /\ extends inert w w') \/
      (exists l w1 pre path d tail,
         getopt_loop E opts init_locals w = Ret l w1 /\
         trace w' = trace w ++ pre ++ EvOpen path open_flags (mode l) d :: tail /\
         forallb quiet pre = true /\ 0 <= d /\
         fs w !! path = None /\
         fs w' = <[path := File (Z.land (mode l) (Z.lnot (umask E))) EmptyString]> (fs w) /\
         (if (name l =? 0)%N
          then exists base pre' mid,
              path = candidate base l /\
              pre = pre' ++ EvTempnam (dir l) (pfx l) (Some base) :: mid /\
              forallb is_alloc mid = true
          else path = deref (name l) w1 /\ forallb is_alloc pre = true) /\
         ((st = 0 /\ exists frees, forallb is_free frees = true /\
              tail = EvClose d 0 :: EvWrite 1 (path +:+ nl) :: frees ++ [EvExit 0]) \/
          (st = 1 /\ exists msg, tail = [EvClose d (-1); EvWrite 2 msg; EvExit 1])))
  end.
Proof.
  unfold main. cbn [bind].
  pose proof (getopt_loop_cases opts init_locals w) as H0.
  destruct (getopt_loop E opts init_locals w) as [l w1|st w1|] eqn:Hopt;
    [|left; exact H0|exact I].
  destruct H0 as [Hf0 (evs0 & Ht0 & Ha0)].
  destruct (name l =? 0)%N eqn:Hname; cbn [negb].
  - (* generated name *)
    pose proof (create_generated_cases n l w1) as H1.
    destruct (create_generated E n l w1) as [l' w2|st w2|]; [| |exact I].
    + destruct H1 as (base & pre & mid & Ht & Hq & Hm & Hfd & Hmo & Hs & Hd & Hnone & Hfs).
      destruct (finish_cases l' w2) as (w' & Hf' & Hfin).
      assert (Hpre : forallb quiet (evs0 ++ pre ++ EvTempnam (dir l) (pfx l) (Some base) :: mid) = true).
      { rewrite !forallb_app. simpl. rewrite Hq.
        rewrite (forallb_weaken _ _ _ alloc_quiet Ha0).
        now rewrite (forallb_weaken _ _ _ alloc_quiet Hm). }
      destruct Hfin as [[-> (frees & Hfr & Ht')] | [-> (msg & Ht')]]; right;
        exists l, w1, (evs0 ++ pre ++ EvTempnam (dir l) (pfx l) (Some base) :: mid),
               (candidate base l), (fd l'); eexists; rewrite Hname;
        (split; [reflexivity|]);
        (split; [rewrite Ht', Ht, Ht0, ?Hd; list_eq|]);
        (split; [exact Hpre|]); (split; [exact Hfd|]);
        (split; [congruence|]); (split; [congruence|]);
        (split; [exists base, (evs0 ++ pre), mid; repeat split; [list_eq | exact Hm]|]).
      * left. split; [reflexivity|]. exists frees. split; [exact Hfr | reflexivity].
      * right. split; [reflexivity|]. exists msg. reflexivity.
    + destruct H1 as (-> & Hfs & Hx). left. split; [congruence|].
      eapply extends_trans; [|exact Hx].
      exists evs0. split; [exact Ht0|].
      exact (forallb_weaken _ _ _ (fun e He => quiet_inert e (alloc_quiet e He)) Ha0).
  - (* the caller's name *)
    pose proof (create_named_cases l w1 _ eq_refl) as H1.
    destruct (excl_errno E (deref (name l) w1) w1) as [e|] eqn:He; rewrite H1.
    + left. run. split; [exact Hf0|].
      eexists. run. rewrite Ht0. split; [list_eq|].
      rewrite forallb_app.
      rewrite (forallb_weaken _ _ _ (fun e He => quiet_inert e (alloc_quiet e He)) Ha0).
      reflexivity.
    + set (l' := set_filename _ _). set (w2 := log _ _).
      destruct (finish_cases l' w2) as (w' & Hf' & Hfin).
      assert (Hnone : fs w !! deref (name l) w1 = None).
      { rewrite <- Hf0. exact (excl_errno_none E _ _ He). }
      destruct Hfin as [[-> (frees & Hfr & Ht')] | [-> (msg & Ht')]]; right;
        exists l, w1, evs0, (deref (name l) w1), (Z.of_nat (fresh_fd w1)); eexists; rewrite Hname;
        (split; [reflexivity|]);
        (split; [rewrite Ht'; subst w2 l'; run; rewrite Ht0; list_eq|]);
        (split; [exact (forallb_weaken _ _ _ alloc_quiet Ha0)|]); (split; [lia|]);
        (split; [exact Hnone|]);
        (split; [rewrite Hf'; subst w2; run; now rewrite Hf0|]);
        (split; [split; [reflexivity | exact Ha0]|]).
      * left. split; [reflexivity|]. exists frees. split; [exact Hfr | reflexivity].
      * right. split; [reflexivity|]. exists msg. reflexivity.
Qed.

End PhaseFacts.

(** ** Reading traces *)

Section TraceFacts.

Lemma written_app d a b : written d (a ++ b) = written d a ++ written d b.
Proof.
  induction a as [|e a IH]; [reflexivity|].
  destruct e as [| | | | |d' s|]; simpl; try exact IH.
  destruct (d' =? d); simpl; now rewrite IH.
Qed.

Lemma written_quiet d evs : forallb quiet evs = true -> written d evs = [].
Proof.
  induction evs as [|e evs IH]; [reflexivity|]. simpl.
  intros [He Hr]%andb_prop. destruct e; try discriminate; simpl; auto.
Qed.

Lemma written_free d evs : forallb is_free evs = true -> written d evs = [].
Proof. intros H. apply written_quiet. exact (forallb_weaken _ _ _ free_quiet H). Qed.

Lemma opens_app a b : opens (a ++ b) = opens a ++ opens b.
Proof.
  induction a as [|e a IH]; [reflexivity|].
  destruct e; simpl; now rewrite ?IH.
Qed.

Lemma opens_none evs : forallb (fun e => negb (is_open e)) evs = true -> opens evs = [].
Proof.
  induction evs as [|e evs IH]; [reflexivity|]. simpl.
  intros [He Hr]%andb_prop. destruct e; try discriminate; simpl; auto.
Qed.

Lemma alloc_not_open e : is_alloc e = true -> negb (is_open e) = true.
Proof. now destruct e. Qed.

Lemma free_not_open e : is_free e = true -> negb (is_open e) = true.
Proof. now destruct e. Qed.

Lemma inert_no_close evs d r : forallb inert evs = true -> ~ In (EvClose d r) evs.
Proof.
  rewrite forallb_forall. intros H Hin. specialize (H _ Hin). discriminate.
Qed.

Lemma inert_no_created evs e : forallb inert evs = true -> In e evs -> created e = false.
Proof.
  rewrite forallb_forall. intros H Hin. specialize (H _ Hin).
  unfold inert in H. apply andb_prop in H as [H _]. now destruct (created e).
Qed.


Lemma append_nil_r s : s +:+ EmptyString = s.
Proof. induction s as [|c s IH]; [reflexivity|]. cbn. unfold append; fold append. now rewrite IH. Qed.

Lemma append_assoc a b c : (a +:+ b) +:+ c = a +:+ (b +:+ c).
Proof. induction a as [|x a IH]; [reflexivity|]. unfold append; fold append. now rewrite IH. Qed.



End TraceFacts.

(** ** Fuel *)

Section FuelFacts.
Variable E : env.

(** More fuel does not change a run that ended. *)
Lemma create_generated_fuel n : forall m l w,
  create_generated E n l w <> Timeout ->
  create_generated E (n + m) l w = create_generated E n l w.
Proof.
  induction n as [|n IH]; intros m l w H; [now elim H|].
  change (S n + m)%nat with (S (n + m)). rewrite !create_generated_S in *.
  cbn [bind] in *.
  destruct (tempnam E (dir l) (pfx l) w) as [nm w1| |]; [|reflexivity..].
  destruct (nm =? 0)%N; [reflexivity|]. cbn [bind] in *.
  destruct (compose_filename E nm l w1) as [fn w2| |]; [|reflexivity..].
  run. run in H.
  destruct (sys_open E _ open_flags (mode l) w2) as [d w3| |]; [|reflexivity..].
  destruct (d <? 0); [|reflexivity]. run. run in H.
  destruct (errno w3 =? EEXIST); [|reflexivity].
  destruct (nm =? fn)%N; run; run in H;
    repeat match goal with
    | |- context [(?p =? 0)%N] => destruct (p =? 0)%N; run; run in H
    end; now apply IH.
Qed.

Lemma main_fuel opts n m w :
  main E opts n w <> Timeout ->
  main E opts (n + m) w = main E opts n w.
Proof.
  unfold main. cbn [bind].
  destruct (getopt_loop E opts init_locals w) as [l w1| |]; [|reflexivity..].
  destruct (negb (name l =? 0)%N); [reflexivity|].
  intros H. rewrite create_generated_fuel; [reflexivity|].
  intros Ht. rewrite Ht in H. now apply H.
Qed.


Lemma excl_errno_fs path w w' : fs w' = fs w -> excl_errno E path w' = excl_errno E path w.
Proof. unfold excl_errno. now intros ->. Qed.

(** Enough fuel: when the candidate of turn [k] does not collide, the
    loop ends within [k + 1] turns. *)
Lemma create_generated_ends k : forall l w,
  (forall b, tempnam_name E (ntempnam w + k) (dir l) (pfx l) = Some b ->
             excl_errno E (candidate b l) w <> Some EEXIST) ->
  create_generated E (S k) l w <> Timeout.
Proof.
  induction k as [|k IH]; intros l w Hk;
    match goal with
    | |- create_generated E (S ?n) _ _ <> _ => pose proof (attempt E n l w) as H
    end;
    (destruct (tempnam_name E (ntempnam w) (dir l) (pfx l)) as [base|] eqn:Ht;
     [|destruct H as (w' & -> & _); discriminate]);
    (destruct (bool_decide (is_Some (sfx l)) && alloc_fails E (nalloc w));
     [destruct H as (w' & -> & _); discriminate|]);
    cbv zeta in H;
    (destruct (excl_errno E (candidate base l) w) as [e|] eqn:He;
     [|destruct H as (l' & w' & mid & -> & _); discriminate]);
    (destruct (e =? EEXIST) eqn:Hee;
     [|destruct H as (w' & mid & -> & _); discriminate]);
    apply Z.eqb_eq in Hee; subst e.
  - exfalso. apply (Hk base); [now rewrite Nat.add_0_r | exact He].
  - destruct H as (w' & mid & frees & -> & Hf & _ & _ & Hn & _).
    apply IH. intros b Hb. rewrite (excl_errno_fs _ _ _ Hf).
    apply Hk. rewrite Hn in Hb. now rewrite Nat.add_succ_r.
Qed.

End FuelFacts.

(** ** Runs that created and closed their file *)

Section RunFacts.
Variable E : env.

Lemma quiet_no_close evs d r : forallb quiet evs = true -> ~ In (EvClose d r) evs.
Proof.
  intros H. apply inert_no_close. exact (forallb_weaken _ _ _ quiet_inert H).
Qed.

Lemma free_no_close evs d r : forallb is_free evs = true -> ~ In (EvClose d r) evs.
Proof.
  intros H. apply quiet_no_close. exact (forallb_weaken _ _ _ free_quiet H).
Qed.


End RunFacts.

(** ** What the mode parser decides *)

Section ModeFacts.

Lemma parsemode_range s m v : parsemode s m = (0, v) -> 0 <= v <= o7777.
Proof.
  unfold parsemode, o7777, mode_t_cast. destruct (strtol s 8) as [x e].
  destruct (negb (at_nul e)); [discriminate|]. simpl.
  destruct (Z.ltb_spec x 0); [discriminate|]. simpl.
  rewrite Z.gtb_ltb. destruct (Z.ltb_spec 4095 x); [discriminate|].
  intros [= <-]. rewrite Z.mod_small; lia.
Qed.

Lemma parsemode_decides s m :
  (at_nul s = true \/
   (octal_string (snd (mode_body s)) = true /\
    (if fst (mode_body s) then octal_value (snd (mode_body s)) = 0
     else octal_value (snd (mode_body s)) <= o7777)) ->
   parsemode s m = (0, mode_of_arg s)) /\
  (~ (at_nul s = true \/
      (octal_string (snd (mode_body s)) = true /\
       (if fst (mode_body s) then octal_value (snd (mode_body s)) = 0
        else octal_value (snd (mode_body s)) <= o7777))) ->
   parsemode s m = (1, m)).
Proof.
  unfold mode_of_arg. destruct (mode_body s) as [neg d] eqn:Hb. cbn [fst snd]. split.
  - intros [Hs | [Hd Hv]].
    + destruct s; [|discriminate]. cbv in Hb. injection Hb as <- <-. reflexivity.
    + now apply (parsemode_accepts s m neg d).
  - intros Hn. apply (parsemode_rejects s m neg d); auto.
    + destruct (at_nul s); [elim Hn; now left | reflexivity].
    + destruct (octal_string d) eqn:Hd; [right | now left].
      destruct neg.
      * intros Hz. apply Hn. right. auto.
      * apply Z.nle_gt. intros Hle. apply Hn. right. auto.
Qed.

(** The value of an accepted string is that of its digits. *)
Lemma parsemode_value s m v : parsemode s m = (0, v) -> v = mode_of_arg s.
Proof.
  intros Hp. destruct (parsemode_decides s m) as [Hyes Hno].
  destruct (at_nul s) eqn:Hn.
  { rewrite Hyes in Hp by now left. congruence. }
  destruct (octal_string (snd (mode_body s))) eqn:Ho.
  2:{ rewrite Hno in Hp; [discriminate|]. intros [?|[? _]]; discriminate. }
  destruct (fst (mode_body s)) eqn:Hs.
  - destruct (Z.eq_dec (octal_value (snd (mode_body s))) 0) as [Hz|Hz].
    + rewrite Hyes in Hp by (right; auto). congruence.
    + rewrite Hno in Hp; [discriminate|].
      intros [?|[_ ?]]; [discriminate | contradiction].
  - destruct (Z_le_dec (octal_value (snd (mode_body s))) o7777) as [Hz|Hz].
    + rewrite Hyes in Hp by (right; auto). congruence.
    + rewrite Hno in Hp; [discriminate|].
      intros [?|[_ ?]]; [discriminate | contradiction].
Qed.

End ModeFacts.

(** ** The option loop, field by field *)

Section OptionFacts.
Variable E : env.

(** What one option does to the locals, when the run goes on. *)
Lemma option_case_fields c a l w l' w' :
  option_case E c a l w = Ret l' w' ->
  pfx l' = (if c =? code "p" then Some a else pfx l) /\
  sfx l' = (if c =? code "s" then Some a else sfx l) /\
  dir l' = (if c =? code "d" then Some a else dir l) /\
  mode l' = (if c =? code "m" then mode_of_arg a else mode l) /\
  (0 <= mode l <= o7777 -> 0 <= mode l' <= o7777) /\
  (name l' = 0%N -> name l = 0%N /\ heap w' = heap w /\ nalloc w' = nalloc w) /\
  fds w' = fds w /\ ntempnam w' = ntempnam w.
Proof.
  unfold option_case.
  destruct (Z.eqb_spec c 0) as [->|H0]; [intros [= <- <-]; cbn; tauto|].
  destruct (Z.eqb_spec c (code "p")) as [->|Hp]; [intros [= <- <-]; cbn; tauto|].
  destruct (Z.eqb_spec c (code "s")) as [->|Hs]; [intros [= <- <-]; cbn; tauto|].
  destruct (Z.eqb_spec c (code "d")) as [->|Hd]; [intros [= <- <-]; cbn; tauto|].
  destruct (Z.eqb_spec c (code "m")) as [->|Hm].
  - destruct (parsemode a (mode l)) as [r v] eqn:Hpm.
    destruct (Z.eqb_spec r 0) as [->|Hr]; run; [|rewrite usage_1; discriminate].
    intros [= <- <-]. cbn.
    pose proof (parsemode_range a (mode l) v Hpm) as Hrange.
    pose proof (parsemode_value a (mode l) v Hpm) as Hv. subst v. tauto.
  - destruct (Z.eqb_spec c (code "n")) as [->|Hn].
    + unfold strdup. run. unfold malloc. destruct (alloc_fails E (nalloc w)); run.
      * discriminate.
      * rewrite fresh_addr_nz. run. rewrite fresh_addr_nz. intros [= <- <-]. cbn.
        do 4 (split; [reflexivity|]). split; [auto|]. split; [|auto].
        intros Hz. exfalso. apply N.eqb_eq in Hz. rewrite fresh_addr_nz in Hz.
        discriminate.
    + destruct (c =? code "h"); [rewrite usage_0; discriminate|].
      destruct (c =? code "v"); [run; discriminate|].
      run. rewrite usage_1; discriminate.
Qed.

Lemma getopt_loop_fields opts : forall l w l' w',
  getopt_loop E opts l w = Ret l' w' ->
  pfx l' = last_arg (code "p") opts (pfx l) /\
  sfx l' = last_arg (code "s") opts (sfx l) /\
  dir l' = last_arg (code "d") opts (dir l) /\
  mode l' = from_option mode_of_arg (mode l) (last_arg (code "m") opts None) /\
  (0 <= mode l <= o7777 -> 0 <= mode l' <= o7777) /\
  (name l' = 0%N -> name l = 0%N /\ heap w' = heap w /\ nalloc w' = nalloc w) /\
  fds w' = fds w /\ ntempnam w' = ntempnam w.
Proof.
  induction opts as [|[c a] rest IH]; intros l w l' w' Hrun.
  - injection Hrun as <- <-. cbn. tauto.
  - cbn [getopt_loop bind] in Hrun.
    destruct (option_case E c a l w) as [l1 w1| |] eqn:H1; try discriminate.
    destruct (option_case_fields _ _ _ _ _ _ H1) as (Hp & Hs & Hd & Hm & Hr & Hn & Hf & Ht).
    destruct (IH _ _ _ _ Hrun) as (Hp2 & Hs2 & Hd2 & Hm2 & Hr2 & Hn2 & Hf2 & Ht2).
    cbn [last_arg].
    split; [now rewrite Hp2, Hp|]. split; [now rewrite Hs2, Hs|].
    split; [now rewrite Hd2, Hd|].
    split.
    { rewrite Hm2, Hm.
      assert (Hgen : forall o d, from_option mode_of_arg d (last_arg (code "m") rest o)
                = from_option mode_of_arg (from_option mode_of_arg d o)
                    (last_arg (code "m") rest None)).
      { clear. induction rest as [|[c' a'] rest IH]; intros o d; [now destruct o|].
        cbn [last_arg]. destruct (c' =? code "m"); [|apply IH].
        rewrite (IH (Some a') d). now rewrite (IH (Some a') (from_option mode_of_arg d o)). }
      destruct (c =? code "m"); [|reflexivity].
      now rewrite (Hgen (Some a) (mode l)). }
    split; [auto|]. split; [|split; congruence].
    intros Hz. destruct (Hn2 Hz) as (Hz1 & Hh & Ha). destruct (Hn Hz1) as (? & ? & ?).
    repeat split; congruence.
Qed.

End OptionFacts.

(** ** Heap and descriptors *)

Section ResourceFacts.
Variable E : env.

Lemma fresh_fd_new w : fresh_fd w ∉ fds w.
Proof. unfold fresh_fd. apply is_fresh. Qed.

Lemma fd_taken (k : nat) (X : gset nat) : k ∈ ({[k]} ∪ X : gset nat).
Proof. apply elem_of_union_l. now apply elem_of_singleton. Qed.

Lemma fd_returned (k : nat) (X : gset nat) : k ∉ X -> ({[k]} ∪ X) ∖ {[k]} = X.
Proof.
  intros Hk. apply set_eq. intros x.
  rewrite elem_of_difference, elem_of_union, !elem_of_singleton.
  split; [intros [[->|Hx] Hn]; [now elim Hn | exact Hx]|].
  intros Hx. split; [now right | intros ->; contradiction].
Qed.

(** A close that succeeds gives the descriptor back. *)
Lemma sys_close_ok k w :
  k ∈ fds w -> close_fault E (Z.of_nat k) = None ->
  sys_close E (Z.of_nat k) w
  = Ret 0 (log (EvClose (Z.of_nat k) 0) (set_fds (fds w ∖ {[k]}) w)).
Proof.
  intros Hk Hc. unfold sys_close. rewrite Nat2Z.id.
  assert (Hlt : (Z.of_nat k <? 0) = false) by (apply Z.ltb_ge; lia).
  rewrite Hlt, (bool_decide_eq_true_2 _ Hk), Hc. reflexivity.
Qed.

(** The epilogue when the close succeeds: the name is reported, both
    pointers are released, the descriptor is gone. *)
Lemma finish_ok l w k :
  fd l = Z.of_nat k -> k ∈ fds w -> close_fault E (Z.of_nat k) = None ->
  name l <> 0%N -> filename l <> 0%N ->
  exists w' frees,
    finish E l w = Exit 0 w' /\
    trace w' = trace w ++ EvClose (fd l) 0 ::
                 EvWrite 1 (deref (filename l) w +:+ nl) :: frees ++ [EvExit 0] /\
    forallb is_free frees = true /\
    fs w' = fs w /\
    heap w' = delete (filename l) (delete (name l) (heap w)) /\
    fds w' = fds w ∖ {[k]}.
Proof.
  intros Hfd Hk Hc Hn Hf. unfold finish. run. rewrite Hfd, (sys_close_ok k w Hk Hc).
  change (negb (0 =? 0)) with false. run.
  apply N.eqb_neq in Hn, Hf.
  destruct (name l =? filename l)%N eqn:Heq; run.
  - rewrite Hf. run. apply N.eqb_eq in Heq.
    eexists _, [_]. split; [reflexivity|]. run.
    split; [list_eq|]. split; [reflexivity|]. split; [reflexivity|].
    split; [|reflexivity]. rewrite Heq. now rewrite delete_delete_eq.
  - rewrite Hn. run. rewrite Hf. run.
    eexists _, [_; _]. split; [reflexivity|]. run.
    split; [list_eq|]. split; [reflexivity|]. split; [reflexivity|].
    split; reflexivity.
Qed.


(** The turn of the loop that creates the file, with what it holds
    when it returns. *)
Lemma turn_creates n l w base :
  tempnam_name E (ntempnam w) (dir l) (pfx l) = Some base ->
  (is_Some (sfx l) -> alloc_fails E (nalloc w) = false) ->
  excl_errno E (candidate base l) w = None ->
  exists l' w' mid k,
    create_generated E (S n) l w = Ret l' w' /\
    fd l' = Z.of_nat k /\ (k ∉ fds w) /\ fds w' = ({[k]} ∪ fds w) /\
    name l' <> 0%N /\ filename l' <> 0%N /\
    delete (filename l') (delete (name l') (heap w')) = heap w /\
    deref (filename l') w' = candidate base l /\
    fs w' = <[candidate base l :=
                File (Z.land (mode l) (Z.lnot (umask E))) EmptyString]> (fs w) /\
    trace w' = trace w ++ EvTempnam (dir l) (pfx l) (Some base) :: mid ++
                 [EvOpen (candidate base l) open_flags (mode l) (fd l')] /\
    forallb is_alloc mid = true.
Proof.
  intros Ht Ha He.
  remember (create_generated E (S n) l w) as R eqn:HR.
  rewrite create_generated_S in HR.
  pose proof (tempnam_some E _ _ _ _ Ht) as Hrun. cbv zeta in Hrun.
  set (w1 := log (EvTempnam (dir l) (pfx l) (Some base)) (tick_tempnam w)) in *.
  set (p := fresh_addr w1) in *.
  set (w2 := set_heap (<[p := base]> (heap w)) w1) in *.
  assert (Hp : heap w2 !! p = Some base) by (subst w2; run; apply lookup_insert_eq).
  assert (Hpz : (p =? 0)%N = false) by apply fresh_addr_nz.
  assert (Hfree : heap w !! p = None) by apply (fresh_addr_free w1).
  run in HR. rewrite Hrun in HR. run in HR. rewrite Hpz in HR.
  unfold candidate in *.
  destruct (sfx l) as [s|] eqn:Hs.
  - assert (Hal : alloc_fails E (nalloc w2) = false) by (apply Ha; eauto).
    run in HR. rewrite (compose_suffix E p l w2 s base Hs Hal Hp) in HR.
    set (q := fresh_addr w2) in *.
    assert (Hq : heap w2 !! q = None) by apply fresh_addr_free.
    assert (Hqz : (q =? 0)%N = false) by apply fresh_addr_nz.
    assert (Hqp : q <> p) by (intros Heq; rewrite Heq in Hq; congruence).
    assert (Hq' : heap w !! q = None).
    { subst w2. run in Hq. now rewrite lookup_insert_ne in Hq by congruence. }
    run in HR. rewrite lookup_insert_eq in HR. run in HR.
    erewrite sys_open_excl_ok in HR by exact He. run in HR.
    set (k := fresh_fd _) in HR.
    assert (Hfd : (Z.of_nat k <? 0) = false) by (apply Z.ltb_ge; lia).
    rewrite Hfd in HR. run in HR.
    eexists _, _, [_], k. split; [exact HR|]. run.
    split; [reflexivity|]. split; [apply (fresh_fd_new w)|]. split; [reflexivity|].
    split; [now apply N.eqb_neq|]. split; [now apply N.eqb_neq|].
    split.
    { subst w2. run. rewrite delete_insert_ne by congruence.
      rewrite !delete_insert_eq. rewrite (delete_id (heap w) p) by exact Hfree.
      now apply delete_id. }
    split; [now rewrite lookup_insert_eq|].
    split; [reflexivity|].
    split; [subst w2 w1; run; now rewrite <- !app_assoc|]. reflexivity.
  - run in HR. rewrite (compose_plain E p l w2 Hs) in HR. run in HR.
    rewrite Hp in HR. run in HR.
    erewrite sys_open_excl_ok in HR by exact He. run in HR.
    set (k := fresh_fd _) in HR.
    assert (Hfd : (Z.of_nat k <? 0) = false) by (apply Z.ltb_ge; lia).
    rewrite Hfd in HR. run in HR.
    eexists _, _, [], k. split; [exact HR|]. run.
    split; [reflexivity|]. split; [apply (fresh_fd_new w)|]. split; [reflexivity|].
    split; [now apply N.eqb_neq|]. split; [now apply N.eqb_neq|].
    split.
    { subst w2. run. rewrite delete_insert_eq, delete_delete_eq. now apply delete_id. }
    split; [now rewrite Hp|].
    split; [reflexivity|].
    split; [subst w2 w1; run; now rewrite <- !app_assoc|]. reflexivity.
Qed.


(** The loop returns the first name of [tempnam] that does not
    collide, after one failed open for each name before it. *)
Lemma first_free bs : forall l w b m,
  (forall j, alloc_fails E j = false) ->
  (forall i b', bs !! i = Some b' ->
     tempnam_name E (ntempnam w + i) (dir l) (pfx l) = Some b' /\
     excl_errno E (candidate b' l) w = Some EEXIST) ->
  tempnam_name E (ntempnam w + length bs) (dir l) (pfx l) = Some b ->
  excl_errno E (candidate b l) w = None ->
  exists l' w' evs k,
    create_generated E (S (length bs) + m) l w = Ret l' w' /\
    trace w' = trace w ++ evs ++ [EvOpen (candidate b l) open_flags (mode l) (fd l')] /\
    forallb quiet evs = true /\
    opens evs = map (fun x => (candidate x l, open_flags, mode l)) bs /\
    fd l' = Z.of_nat k /\ (k ∉ fds w) /\ fds w' = ({[k]} ∪ fds w) /\
    name l' <> 0%N /\ filename l' <> 0%N /\
    delete (filename l') (delete (name l') (heap w')) = heap w /\
    deref (filename l') w' = candidate b l /\
    fs w' = <[candidate b l :=
                File (Z.land (mode l) (Z.lnot (umask E))) EmptyString]> (fs w).
Proof.
  induction bs as [|b0 bs IH]; intros l w b m Hal Hbs Hb He.
  - rewrite Nat.add_0_r in Hb.
    destruct (turn_creates m l w b Hb (fun _ => Hal _) He)
      as (l' & w' & mid & k & Hr & Hfd & Hk & Hfds & Hn & Hf & Hh & Hd & Hfs & Ht & Hm).
    exists l', w', (EvTempnam (dir l) (pfx l) (Some b) :: mid), k.
    split; [exact Hr|]. split; [rewrite Ht; list_eq|].
    split; [simpl; exact (forallb_weaken _ _ _ alloc_quiet Hm)|].
    split; [simpl; apply opens_none; exact (forallb_weaken _ _ _ alloc_not_open Hm)|].
    auto 12.
  - destruct (Hbs 0%nat b0 eq_refl) as [Ht0 He0]. rewrite Nat.add_0_r in Ht0.
    pose proof (attempt E (S (length bs) + m) l w) as Hat.
    rewrite Ht0, (Hal (nalloc w)), andb_false_r in Hat. cbv zeta in Hat.
    rewrite He0 in Hat. change (EEXIST =? EEXIST) with true in Hat.
    destruct Hat as (w1 & mid & frees & Hr & Hf1 & Hh1 & Hd1 & Hn1 & Ht1 & Hm1 & Hfr1).
    destruct (IH l w1 b m Hal) as
      (l' & w' & evs & k & Hr2 & Ht2 & Hq2 & Ho2 & Hfd & Hk & Hfds & Hn & Hf & Hh & Hd & Hfs).
    + intros i b' Hi. destruct (Hbs (S i) b' Hi) as [Hti Hei].
      rewrite Hn1, (excl_errno_fs E _ _ _ Hf1). split; [|exact Hei].
      now rewrite Nat.add_succ_r in Hti.
    + rewrite Hn1. cbn [length] in Hb. now rewrite Nat.add_succ_r in Hb.
    + now rewrite (excl_errno_fs E _ _ _ Hf1).
    + exists l', w',
        ((EvTempnam (dir l) (pfx l) (Some b0) :: mid ++
          EvOpen (candidate b0 l) open_flags (mode l) (-1) :: frees) ++ evs), k.
      split; [change (S (length (b0 :: bs)) + m)%nat with (S (S (length bs) + m));
              rewrite Hr; exact Hr2|].
      split; [rewrite Ht2, Ht1; list_eq|].
      split.
      { rewrite forallb_app, Hq2, andb_true_r. simpl. rewrite forallb_app. simpl.
        rewrite (forallb_weaken _ _ _ alloc_quiet Hm1).
        now rewrite (forallb_weaken _ _ _ free_quiet Hfr1). }
      split.
      { rewrite opens_app, Ho2. simpl. rewrite opens_app. simpl.
        rewrite (opens_none mid), (opens_none frees); [reflexivity| |].
        - exact (forallb_weaken _ _ _ free_not_open Hfr1).
        - exact (forallb_weaken _ _ _ alloc_not_open Hm1). }
      rewrite <- Hd1, <- Hh1, <- Hf1. auto 12.
Qed.

End ResourceFacts.

(** ** The name of the caller *)

Section NameFacts.
Variable E : env.

(** What one option does to [name], when the run goes on: [-n] leaves
    it on a block that holds the argument, any other option leaves it
    and the heap alone. *)
Lemma option_case_name c a l w l' w' :
  option_case E c a l w = Ret l' w' ->
  if c =? code "n"
  then name l' <> 0%N /\ deref (name l') w' = a
  else name l' = name l /\ heap w' = heap w.
Proof.
  unfold option_case.
  destruct (Z.eqb_spec c 0) as [->|H0]; [intros [= <- <-]; now vm_compute|].
  destruct (Z.eqb_spec c (code "p")) as [->|Hp];
    [intros [= <- <-]; change (code "p" =? code "n") with false; now cbn|].
  destruct (Z.eqb_spec c (code "s")) as [->|Hs];
    [intros [= <- <-]; change (code "s" =? code "n") with false; now cbn|].
  destruct (Z.eqb_spec c (code "d")) as [->|Hd];
    [intros [= <- <-]; change (code "d" =? code "n") with false; now cbn|].
  destruct (Z.eqb_spec c (code "m")) as [->|Hm].
  - destruct (parsemode a (mode l)) as [r v].
    destruct (r =? 0); run; [|rewrite usage_1; discriminate].
    intros [= <- <-]. change (code "m" =? code "n") with false. now cbn.
  - destruct (Z.eqb_spec c (code "n")) as [->|Hn].
    + unfold strdup. run. unfold malloc. destruct (alloc_fails E (nalloc w)); run.
      * discriminate.
      * rewrite fresh_addr_nz. run. rewrite fresh_addr_nz. intros [= <- <-]. cbn.
        split.
        -- intros Hz. apply N.eqb_eq in Hz. rewrite fresh_addr_nz in Hz. discriminate.
        -- now rewrite lookup_insert_eq.
    + destruct (c =? code "h"); [rewrite usage_0; discriminate|].
      destruct (c =? code "v"); [run; discriminate|].
      run. rewrite usage_1; discriminate.
Qed.

(** When the loop ends without leaving, [name] is null without [-n],
    and with it points to a copy of the argument of the last [-n]. *)
Lemma getopt_loop_name opts : forall l w l' w' d,
  getopt_loop E opts l w = Ret l' w' ->
  match d with
  | Some F => name l <> 0%N /\ deref (name l) w = F
  | None => name l = 0%N
  end ->
  match last_arg (code "n") opts d with
  | Some F => name l' <> 0%N /\ deref (name l') w' = F
  | None => name l' = 0%N
  end.
Proof.
  induction opts as [|[c a] rest IH]; intros l w l' w' d Hrun Hd.
  - injection Hrun as <- <-. exact Hd.
  - cbn [getopt_loop bind] in Hrun.
    destruct (option_case E c a l w) as [l1 w1| |] eqn:H1; try discriminate.
    apply option_case_name in H1. cbn [last_arg].
    apply (IH l1 w1 l' w' _ Hrun).
    destruct (c =? code "n"); [exact H1|].
    destruct H1 as [Hn Hh]. unfold deref in *. rewrite Hn, Hh. exact Hd.
Qed.

End NameFacts.

(** ** The close of the descriptor *)

Section CloseFacts.
Variable E : env.

(** The descriptor the loop returns is open. *)
Lemma create_generated_fd n : forall l w l' w',
  create_generated E n l w = Ret l' w' ->
  exists k, fd l' = Z.of_nat k /\ k ∈ fds w'.
Proof.
  induction n as [|n IH]; intros l w l' w' Hr; [discriminate|].
  pose proof (attempt E n l w) as H.
  destruct (tempnam_name E (ntempnam w) (dir l) (pfx l)) as [base|] eqn:Ht.
  2:{ destruct H as (w2 & Hx & _). rewrite Hx in Hr. discriminate. }
  destruct (bool_decide (is_Some (sfx l)) && alloc_fails E (nalloc w)) eqn:Hb.
  { destruct H as (w2 & Hx & _). rewrite Hx in Hr. discriminate. }
  cbv zeta in H.
  destruct (excl_errno E (candidate base l) w) as [e|] eqn:He.
  - destruct (e =? EEXIST).
    + destruct H as (w2 & mid & frees & Hx & _). rewrite Hx in Hr. eapply IH; eauto.
    + destruct H as (w2 & mid & Hx & _). rewrite Hx in Hr. discriminate.
  - destruct (turn_creates E n l w base Ht) as
      (l2 & w2 & mid & k & Hx & Hfd & Hk & Hfds & _); [|exact He|].
    + intros Hs. rewrite (bool_decide_eq_true_2 _ Hs) in Hb. exact Hb.
    + rewrite Hx in Hr. injection Hr as <- <-. exists k. split; [exact Hfd|].
      rewrite Hfds. apply fd_taken.
Qed.

(** [close] of an open descriptor fails only where the medium does. *)
Lemma sys_close_fault k w e :
  k ∈ fds w -> close_fault E (Z.of_nat k) = Some e ->
  sys_close E (Z.of_nat k) w
  = Ret (-1) (log (EvClose (Z.of_nat k) (-1)) (set_errno e (set_fds (fds w ∖ {[k]}) w))).
Proof.
  intros Hk Hc. unfold sys_close. rewrite Nat2Z.id.
  assert (Hlt : (Z.of_nat k <? 0) = false) by (apply Z.ltb_ge; lia).
  rewrite Hlt, (bool_decide_eq_true_2 _ Hk), Hc. reflexivity.
Qed.

Lemma finish_ok_status l w k :
  fd l = Z.of_nat k -> k ∈ fds w -> close_fault E (Z.of_nat k) = None ->
  exists w', finish E l w = Exit 0 w'.
Proof.
  intros Hfd Hk Hc. unfold finish. run. rewrite Hfd, (sys_close_ok E k w Hk Hc).
  change (negb (0 =? 0)) with false. run.
  destruct (name l =? filename l)%N; run;
    repeat match goal with
    | |- context [(?p =? 0)%N] => destruct (p =? 0)%N; run
    end; eexists; reflexivity.
Qed.

(** The epilogue on an open descriptor: which way it goes is decided
    by the close alone. *)
Lemma finish_decided l w k :
  fd l = Z.of_nat k -> k ∈ fds w ->
  exists w', fs w' = fs w /\
    match close_fault E (fd l) with
    | None =>
        finish E l w = Exit 0 w' /\
        exists frees, forallb is_free frees = true /\
          trace w' = trace w ++ EvClose (fd l) 0 ::
                       EvWrite 1 (deref (filename l) w +:+ nl) :: frees ++ [EvExit 0]
    | Some _ =>
        finish E l w = Exit 1 w' /\
        exists msg,
          trace w' = trace w ++ [EvClose (fd l) (-1); EvWrite 2 msg; EvExit 1]
    end.
Proof.
  intros Hfd Hk.
  destruct (finish_cases E l w) as (w' & Hfs & Hfin). exists w'. split; [exact Hfs|].
  destruct (close_fault E (fd l)) as [e|] eqn:Hc; rewrite Hfd in Hc.
  - destruct Hfin as [[Hx _] | Hx]; [|exact Hx].
    exfalso. unfold finish in Hx. cbn [bind] in Hx.
    rewrite Hfd, (sys_close_fault k w e Hk Hc) in Hx.
    change (negb (-1 =? 0)) with true in Hx. run in Hx. discriminate.
  - destruct Hfin as [Hx | [Hx _]]; [exact Hx|].
    exfalso. destruct (finish_ok_status l w k Hfd Hk Hc) as (w2 & Hy). congruence.
Qed.

End CloseFacts.

(** ** Runs that created a file *)

Section CreatedFacts.
Variable E : env.

(** Every finished run of [main] that created a file: what follows the
    creation is decided by the close of its descriptor. *)
Lemma main_created opts n w :
  match main E opts n w with
  | Ret _ _ => False
  | Timeout => True
  | Exit st w' =>
      (fs w' = fs w /\ extends inert w w' /\
       (st = 1 \/ exists w0, getopt_loop E opts init_locals w = Exit st w0)) \/
      (exists l w1 pre path d tail,
         getopt_loop E opts init_locals w = Ret l w1 /\
         trace w' = trace w ++ pre ++ EvOpen path open_flags (mode l) d :: tail /\
         forallb quiet pre = true /\ 0 <= d /\
         fs w !! path = None /\
         fs w' = <[path := File (Z.land (mode l) (Z.lnot (umask E))) EmptyString]> (fs w) /\
         match close_fault E d with
         | None =>
             st = 0 /\ exists frees, forallb is_free frees = true /\
               tail = EvClose d 0 :: EvWrite 1 (path +:+ nl) :: frees ++ [EvExit 0]
         | Some _ =>
             st = 1 /\ exists msg, tail = [EvClose d (-1); EvWrite 2 msg; EvExit 1]
         end)
  end.
Proof.
  unfold main. cbn [bind].
  pose proof (getopt_loop_cases E opts init_locals w) as H0.
  destruct (getopt_loop E opts init_locals w) as [l w1|st w1|] eqn:Hopt;
    [|left; destruct H0; eauto|exact I].
  destruct H0 as [Hf0 (evs0 & Ht0 & Ha0)].
  destruct (name l =? 0)%N eqn:Hname; cbn [negb].
  - (* generated name *)
    pose proof (create_generated_cases E n l w1) as H1.
    destruct (create_generated E n l w1) as [l' w2|st w2|] eqn:Hg; [| |exact I].
    + destruct H1 as (base & pre & mid & Ht & Hq & Hm & Hfd & Hmo & Hs & Hd & Hnone & Hfs).
      destruct (create_generated_fd E n l w1 l' w2 Hg) as (k & Hk & Hin).
      destruct (finish_decided E l' w2 k Hk Hin) as (w' & Hf' & Hfin).
      assert (Hpre : forallb quiet (evs0 ++ pre ++ EvTempnam (dir l) (pfx l) (Some base) :: mid) = true).
      { rewrite !forallb_app. simpl. rewrite Hq.
        rewrite (forallb_weaken _ _ _ alloc_quiet Ha0).
        now rewrite (forallb_weaken _ _ _ alloc_quiet Hm). }
      destruct (close_fault E (fd l')) as [e|] eqn:Hc;
        [destruct Hfin as [-> (msg & Ht')] | destruct Hfin as [-> (frees & Hfr & Ht')]];
        right;
        exists l, w1, (evs0 ++ pre ++ EvTempnam (dir l) (pfx l) (Some base) :: mid),
               (candidate base l), (fd l'); eexists;
        (split; [reflexivity|]);
        (split; [rewrite Ht', Ht, Ht0, ?Hd; list_eq|]);
        (split; [exact Hpre|]); (split; [exact Hfd|]);
        (split; [congruence|]); (split; [congruence|]);
        rewrite Hc; (split; [reflexivity|]).
      * exists msg. reflexivity.
      * exists frees. split; [exact Hfr | reflexivity].
    + destruct H1 as (-> & Hfs & Hx). left. split; [congruence|]. split; [|now left].
      eapply extends_trans; [|exact Hx].
      exists evs0. split; [exact Ht0|].
      exact (forallb_weaken _ _ _ (fun e He => quiet_inert e (alloc_quiet e He)) Ha0).
  - (* the caller's name *)
    pose proof (create_named_cases E l w1 _ eq_refl) as H1.
    destruct (excl_errno E (deref (name l) w1) w1) as [e|] eqn:He; rewrite H1.
    + left. run. split; [exact Hf0|]. split; [|now left].
      eexists. run. rewrite Ht0. split; [list_eq|].
      rewrite forallb_app.
      rewrite (forallb_weaken _ _ _ (fun e He => quiet_inert e (alloc_quiet e He)) Ha0).
      reflexivity.
    + set (l' := set_filename _ _). set (w2 := log _ _).
      destruct (finish_decided E l' w2 (fresh_fd w1)) as (w' & Hf' & Hfin);
        [reflexivity | subst w2; run; apply fd_taken |].
      assert (Hnone : fs w !! deref (name l) w1 = None).
      { rewrite <- Hf0. exact (excl_errno_none E _ _ He). }
      change (fd l') with (Z.of_nat (fresh_fd w1)) in Hfin.
      destruct (close_fault E (Z.of_nat (fresh_fd w1))) as [e|] eqn:Hc;
        [destruct Hfin as [-> (msg & Ht')] | destruct Hfin as [-> (frees & Hfr & Ht')]];
        right;
        exists l, w1, evs0, (deref (name l) w1), (Z.of_nat (fresh_fd w1)); eexists;
        (split; [reflexivity|]);
        (split; [rewrite Ht'; subst w2 l'; run; rewrite Ht0; list_eq|]);
        (split; [exact (forallb_weaken _ _ _ alloc_quiet Ha0)|]); (split; [lia|]);
        (split; [exact Hnone|]);
        (split; [rewrite Hf'; subst w2; run; now rewrite Hf0|]);
        rewrite Hc; (split; [reflexivity|]).
      * exists msg. reflexivity.
      * exists frees. split; [exact Hfr | reflexivity].
Qed.

(** In such a trace the one event that created a file is the [open]
    between the quiet part and the epilogue. *)
Lemma created_unique pre o tail e :
  forallb quiet pre = true ->
  forallb (fun x => negb (created x)) tail = true ->
  In e (pre ++ o :: tail) -> created e = true -> e = o.
Proof.
  intros Hq Ht Hin Hc. apply in_app_or in Hin as [Hin | [Hin | Hin]].
  - rewrite forallb_forall in Hq. specialize (Hq e Hin).
    apply quiet_inert in Hq. unfold inert in Hq. rewrite Hc in Hq. discriminate.
  - now symmetry.
  - rewrite forallb_forall in Ht. specialize (Ht e Hin). rewrite Hc in Ht. discriminate.
Qed.


End CreatedFacts.

Lemma stdout_one s : fold_right append EmptyString [s] = s.
Proof. simpl. apply append_nil_r. Qed.

Lemma lines_no_newline s : forall acc,
  no_newline s = true -> lines_from acc (s +:+ nl) = [acc +:+ s].
Proof.
  induction s as [|c s IH]; intros acc; simpl.
  - intros _. now rewrite append_nil_r.
  - intros [Hc Hs]%andb_prop. apply negb_true_iff in Hc. rewrite Hc.
    rewrite IH by exact Hs. now rewrite append_assoc.
Qed.

(** * The properties of the specification *)

(** ** Mode parser *)

(** C3 (as amended).  A non-empty string of octal digits whose value is
    at most 07777 is accepted with exactly that value.  A non-empty
    string is rejected, the mask left as it was, when what follows its
    leading white space and one optional sign is not a non-empty string
    of octal digits, or denotes a value above 07777, or a value other
    than zero under a minus sign. *)
Theorem parsemode_octal_range (s : string) (m : Z) :
  (octal_string s = true -> octal_value s <= o7777 ->
   parsemode s m = (0, octal_value s)) /\
  (at_nul s = false ->
   octal_string (snd (mode_body s)) = false \/
   (if fst (mode_body s)
    then octal_value (snd (mode_body s)) <> 0
    else o7777 < octal_value (snd (mode_body s))) ->
   parsemode s m = (1, m)).
Proof.
  split.
  - intros Hs Hv. apply (parsemode_accepts s m false s); auto using mode_body_octal.
  - intros Hs Hb. destruct (mode_body s) as [neg d] eqn:Hm.
    now apply (parsemode_rejects s m neg d).
Qed.

Lemma parsemode_octal_range_witness :
  parsemode "0644" o600 = (0, 420) /\ parsemode "17777" o600 = (1, o600) /\
  parsemode "64x" o600 = (1, o600).
Proof.
  split; [|split].
  - apply (proj1 (parsemode_octal_range "0644" o600)); [reflexivity|].
    vm_compute. discriminate.
  - apply (proj2 (parsemode_octal_range "17777" o600)); [reflexivity|].
    right. vm_compute. reflexivity.
  - apply (proj2 (parsemode_octal_range "64x" o600)); [reflexivity|].
    left. reflexivity.
Defined.

(** C3, as the specification words it, fails: a string with a character
    that is no octal digit is accepted. *)
Lemma parsemode_sign_accepted :
  ~ (all_octal "+644" = false -> fst (parsemode "+644" o600) <> 0).
Proof. intros H. now apply H. Qed.

(** C4.  The empty string is accepted, and gives the mask 0; the other
    strings without a digit (white space alone, a sign alone) are
    rejected. *)
Theorem parsemode_empty (m : Z) :
  parsemode "" m = (0, 0) /\
  parsemode " " m = (1, m) /\ parsemode "+" m = (1, m) /\ parsemode "-" m = (1, m).
Proof. repeat split. Qed.

(** C9.  White space or a sign in front of octal digits is accepted:
    the value of the digits is returned, though the string is not a
    string of octal digits. *)
Theorem parsemode_space_sign (d : string) (m : Z) :
  octal_string d = true -> octal_value d <= o7777 ->
  (octal_string (String " " d) = false /\
   parsemode (String " " d) m = (0, octal_value d)) /\
  (octal_string (String "+" d) = false /\
   parsemode (String "+" d) m = (0, octal_value d)).
Proof.
  intros Hd Hv.
  pose proof (mode_body_octal d Hd) as Hb.
  split; (split; [reflexivity|]).
  - now apply (parsemode_accepts _ m false d).
  - now apply (parsemode_accepts _ m false d).
Qed.

Lemma parsemode_space_sign_witness :
  (octal_string " 644" = false /\ parsemode " 644" o600 = (0, 420)) /\
  (octal_string "+644" = false /\ parsemode "+644" o600 = (0, 420)).
Proof.
  apply (parsemode_space_sign "644" o600); [reflexivity|].
  vm_compute. discriminate.
Defined.

(** C10.  A failing parse returns 1 and leaves the mask as it was. *)
Theorem parsemode_failure_keeps_mask (s : string) (m : Z) :
  fst (parsemode s m) <> 0 -> parsemode s m = (1, m).
Proof.
  unfold parsemode. destruct (strtol s 8) as [v endptr].
  destruct (negb (at_nul endptr) || (v <? 0) || (v >? o7777)); simpl; congruence.
Qed.

Lemma parsemode_failure_keeps_mask_witness :
  parsemode "999" o600 = (1, o600) /\ parsemode "-1" 420 = (1, 420) /\
  parsemode "10000" 420 = (1, 420).
Proof.
  split; [|split].
  - apply (parsemode_failure_keeps_mask "999" o600). vm_compute. discriminate.
  - apply (parsemode_failure_keeps_mask "-1" 420). vm_compute. discriminate.
  - apply (parsemode_failure_keeps_mask "10000" 420). vm_compute. discriminate.
Defined.

(** ** The generated-name loop *)

(** C1.  One turn of the loop on a candidate that cannot be created.
    With [EEXIST] the turn ends in the loop itself, one [tempnam] call
    later, with the heap as it was before the turn (the candidate is
    released), the files untouched and nothing reported; and the turn
    that follows opens the next name of [tempnam], with the suffix
    again when there is one.  With any other errno the turn ends the
    process: status 1, [perror("open")] on standard error, and no
    further call of [tempnam]. *)
Theorem generated_retry_only_on_eexist (E : env) (n : nat) (l : locals) (w : world)
    (base : string) (e : Z) :
  tempnam_name E (ntempnam w) (dir l) (pfx l) = Some base ->
  (is_Some (sfx l) -> alloc_fails E (nalloc w) = false) ->
  excl_errno E (candidate base l) w = Some e ->
  (e = EEXIST ->
   exists w' mid frees,
     create_generated E (S n) l w = create_generated E n l w' /\
     fs w' = fs w /\ heap w' = heap w /\ fds w' = fds w /\
     ntempnam w' = S (ntempnam w) /\
     trace w' = trace w ++ EvTempnam (dir l) (pfx l) (Some base) :: mid ++
                  EvOpen (candidate base l) open_flags (mode l) (-1) :: frees /\
     forallb is_alloc mid = true /\ forallb is_free frees = true /\
     (forall base2,
        tempnam_name E (S (ntempnam w)) (dir l) (pfx l) = Some base2 ->
        (is_Some (sfx l) -> alloc_fails E (nalloc w') = false) ->
        excl_errno E (candidate base2 l) w = None ->
        exists l' w'' mid',
          create_generated E (S n) l w' = Ret l' w'' /\
          deref (filename l') w'' = candidate base2 l /\
          trace w'' = trace w' ++ EvTempnam (dir l) (pfx l) (Some base2) :: mid' ++
                        [EvOpen (candidate base2 l) open_flags (mode l) (fd l')] /\
          forallb is_alloc mid' = true /\ 0 <= fd l')) /\
  (e <> EEXIST ->
   exists w' mid,
     create_generated E (S n) l w = Exit 1 w' /\
     fs w' = fs w /\ ntempnam w' = S (ntempnam w) /\
     trace w' = trace w ++ EvTempnam (dir l) (pfx l) (Some base) :: mid ++
                  [EvOpen (candidate base l) open_flags (mode l) (-1);
                   EvWrite 2 ("open: " +:+ strerror E e +:+ nl); EvExit 1] /\
     forallb is_alloc mid = true).
Proof.
  intros Ht Ha He. pose proof (attempt E n l w) as H.
  rewrite Ht in H.
  assert (Hb : forall w0, (is_Some (sfx l) -> alloc_fails E (nalloc w0) = false) ->
               bool_decide (is_Some (sfx l)) && alloc_fails E (nalloc w0) = false).
  { intros w0 Ha0. destruct (sfx l) as [s|] eqn:Hs.
    - rewrite Ha0 by eauto. apply andb_false_r.
    - rewrite bool_decide_eq_false_2; [reflexivity|]. intros [? ?]; discriminate. }
  rewrite (Hb w Ha) in H. cbv zeta in H. rewrite He in H.
  split; intros Hee.
  - subst e. change (EEXIST =? EEXIST) with true in H.
    destruct H as (w' & mid & frees & Hrun & Hf & Hh & Hd & Hn & Htr & Hm & Hfr).
    exists w', mid, frees. repeat (split; [assumption|]).
    intros base2 Ht2 Ha2 He2. pose proof (attempt E n l w') as H2.
    rewrite Hn, Ht2, (Hb w' Ha2) in H2. cbv zeta in H2.
    rewrite (excl_errno_fs E _ _ _ Hf), He2 in H2.
    destruct H2 as (l' & w'' & mid' & Hr & Hfd & _ & _ & Hde & _ & _ & Htr2 & Hm2).
    exists l', w'', mid'. auto.
  - apply Z.eqb_neq in Hee. rewrite Hee in H. exact H.
Qed.

Lemma generated_retry_only_on_eexist_witness :
  (exists w' mid frees,
     create_generated Demo.env0 2 Demo.l_ab Demo.world0
       = create_generated Demo.env0 1 Demo.l_ab w' /\
     fs w' = fs Demo.world0 /\ heap w' = heap Demo.world0 /\ fds w' = fds Demo.world0 /\
     ntempnam w' = 1%nat /\
     trace w' = EvTempnam None (Some "ab"%string) (Some "/tmp/abAAA"%string) :: mid ++
                  EvOpen "/tmp/abAAA.tmp" open_flags 420 (-1) :: frees /\
     forallb is_alloc mid = true /\ forallb is_free frees = true /\
     (forall base2,
        Demo.names 1 None (Some "ab"%string) = Some base2 ->
        (is_Some (Some ".tmp"%string) -> false = false) ->
        excl_errno Demo.env0 (base2 +:+ ".tmp") Demo.world0 = None ->
        exists l' w'' mid',
          create_generated Demo.env0 2 Demo.l_ab w' = Ret l' w'' /\
          deref (filename l') w'' = base2 +:+ ".tmp" /\
          trace w'' = trace w' ++ EvTempnam None (Some "ab"%string) (Some base2) :: mid' ++
                        [EvOpen (base2 +:+ ".tmp") open_flags 420 (fd l')] /\
          forallb is_alloc mid' = true /\ 0 <= fd l')) /\
  (exists w' mid,
     create_generated Demo.env0 1 Demo.l_ro Demo.world0 = Exit 1 w' /\
     fs w' = fs Demo.world0 /\ ntempnam w' = 1%nat /\
     trace w' = EvTempnam (Some "/ro"%string) None (Some "/ro/fileAAA"%string) :: mid ++
                  [EvOpen "/ro/fileAAA" open_flags o600 (-1);
                   EvWrite 2 ("open: error" +:+ nl); EvExit 1] /\
     forallb is_alloc mid = true).
Proof.
  split.
  - refine (proj1 (generated_retry_only_on_eexist Demo.env0 1 Demo.l_ab Demo.world0
                     "/tmp/abAAA" EEXIST _ _ _) _);
      [vm_compute; reflexivity | intros _; vm_compute; reflexivity
      | vm_compute; reflexivity | reflexivity].
  - refine (proj2 (generated_retry_only_on_eexist Demo.env0 0 Demo.l_ro Demo.world0
                     "/ro/fileAAA" EACCES _ _ _) _);
      [vm_compute; reflexivity | intros _; vm_compute; reflexivity
      | vm_compute; reflexivity | discriminate].
Defined.

(** ** The caller's own name *)

(** C2.  When the options are read without leaving and the last [-n]
    among them has the argument [F], the run ends whatever the fuel of
    the loop, it calls [open] exactly once, on [F] with [O_CREAT|O_EXCL]
    and the mask of the options, and if [F] exists the status is 1 and
    no file is changed. *)
Theorem explicit_name_single_attempt (E : env) (opts : list (Z * string)) (n : nat)
    (w : world) (l : locals) (w1 : world) (F : string) :
  getopt_loop E opts init_locals w = Ret l w1 ->
  last_arg (code "n") opts None = Some F ->
  exists st w' evs,
    main E opts n w = Exit st w' /\
    trace w' = trace w ++ evs /\
    opens evs = [(F, open_flags,
                  from_option mode_of_arg o600 (last_arg (code "m") opts None))] /\
    (is_Some (fs w !! F) -> st = 1 /\ fs w' = fs w).
Proof.
  intros Hopt Hlast.
  pose proof (getopt_loop_name E opts _ _ _ _ None Hopt eq_refl) as Hn.
  rewrite Hlast in Hn. destruct Hn as [Hname HF].
  destruct (getopt_loop_fields E opts _ _ _ _ Hopt) as (_ & _ & _ & Hmode & _).
  change (mode init_locals) with o600 in Hmode. rewrite <- Hmode.
  pose proof (getopt_loop_cases E opts init_locals w) as H0. rewrite Hopt in H0.
  destruct H0 as [Hf0 (evs0 & Ht0 & Ha0)].
  assert (Ho0 : opens evs0 = []).
  { apply opens_none. exact (forallb_weaken _ _ _ alloc_not_open Ha0). }
  unfold main. cbn [bind]. rewrite Hopt.
  apply N.eqb_neq in Hname. rewrite Hname. cbn [negb].
  pose proof (create_named_cases E l w1 F HF) as H1.
  destruct (excl_errno E F w1) as [e|] eqn:He; rewrite H1.
  - eexists _, _, _. split; [reflexivity|]. run.
    split; [rewrite Ht0; list_eq|].
    split; [rewrite opens_app, Ho0; reflexivity|]. auto.
  - set (l' := set_filename _ _). set (w2 := log _ _).
    destruct (finish_cases E l' w2) as (w' & Hf' & Hfin).
    assert (Hnone : fs w !! F = None).
    { rewrite <- Hf0. exact (excl_errno_none E _ _ He). }
    destruct Hfin as [[-> (frees & Hfr & Ht')] | [-> (msg & Ht')]];
      eexists _, w', _; (split; [reflexivity|]);
      (split; [rewrite Ht'; subst w2; run; rewrite Ht0; list_eq|]);
      (split; [|rewrite Hnone; intros [? ?]; discriminate]);
      rewrite opens_app, Ho0; simpl; [|reflexivity].
    rewrite opens_app, (opens_none frees); [reflexivity|].
    exact (forallb_weaken _ _ _ free_not_open Hfr).
Qed.

Lemma explicit_name_single_attempt_witness :
  exists st w' evs,
    main Demo.env0 [(code "n", "/tmp/q"%string); (code "p", "zz"%string);
                    (code "n", "/tmp/abAAA.tmp"%string)] 0 Demo.world0 = Exit st w' /\
    trace w' = trace Demo.world0 ++ evs /\
    opens evs = [("/tmp/abAAA.tmp"%string, open_flags, o600)] /\
    (is_Some (fs Demo.world0 !! "/tmp/abAAA.tmp"%string) ->
     st = 1 /\ fs w' = fs Demo.world0).
Proof.
  let r := eval vm_compute in
    (getopt_loop Demo.env0 [(code "n", "/tmp/q"%string); (code "p", "zz"%string);
                            (code "n", "/tmp/abAAA.tmp"%string)] init_locals Demo.world0) in
  lazymatch r with
  | Ret ?l ?w1 =>
      apply (explicit_name_single_attempt Demo.env0
               [(code "n", "/tmp/q"%string); (code "p", "zz"%string);
                (code "n", "/tmp/abAAA.tmp"%string)] 0
               Demo.world0 l w1 "/tmp/abAAA.tmp");
      vm_compute; reflexivity
  end.
Defined.

(** ** An invalid mode *)

(** C6.  When the options before it are read without leaving and
    [parsemode] rejects the argument of [-m], the run ends with status
    1 after the two lines on standard error, whatever follows, without
    a call of [open] and with every file as it was. *)
Theorem invalid_mode_aborts_before_creation (E : env) (pre post : list (Z * string))
    (s : string) (n : nat) (w : world) (l : locals) (w1 : world) :
  getopt_loop E pre init_locals w = Ret l w1 ->
  fst (parsemode s (mode l)) <> 0 ->
  exists w' evs,
    main E (pre ++ (code "m", s) :: post) n w = Exit 1 w' /\
    trace w' = trace w ++ evs /\
    written 2 evs = [invalid_mode s; try_help E] /\
    written 1 evs = [] /\
    opens evs = [] /\
    fs w' = fs w.
Proof.
  intros Hopt Hbad.
  pose proof (getopt_loop_cases E pre init_locals w) as H0. rewrite Hopt in H0.
  destruct H0 as [Hf0 (evs0 & Ht0 & Ha0)].
  unfold main. cbn [bind].
  rewrite (getopt_loop_app E pre _ _ _ _ _ Hopt).
  cbn [getopt_loop bind]. rewrite option_case_m.
  destruct (parsemode s (mode l)) as [r m]. simpl in Hbad.
  apply Z.eqb_neq in Hbad. rewrite Hbad. run. rewrite usage_1.
  eexists _, _. split; [reflexivity|]. run.
  split; [rewrite Ht0; list_eq|].
  rewrite !written_app, opens_app.
  rewrite !(written_quiet _ evs0), (opens_none evs0);
    try exact (forallb_weaken _ _ _ alloc_quiet Ha0);
    try exact (forallb_weaken _ _ _ alloc_not_open Ha0).
  repeat split; auto.
Qed.

Lemma invalid_mode_aborts_before_creation_witness :
  exists w' evs,
    main Demo.env0 ([(code "p", "ab"%string)] ++
                    (code "m", "999"%string) :: [(code "n", "/tmp/q"%string)])
         3 Demo.world0 = Exit 1 w' /\
    trace w' = trace Demo.world0 ++ evs /\
    written 2 evs = [invalid_mode "999"; try_help Demo.env0] /\
    written 1 evs = [] /\
    opens evs = [] /\
    fs w' = fs Demo.world0.
Proof.
  let r := eval vm_compute in
    (getopt_loop Demo.env0 [(code "p", "ab"%string)] init_locals Demo.world0) in
  lazymatch r with
  | Ret ?l ?w1 =>
      apply (invalid_mode_aborts_before_creation Demo.env0 [(code "p", "ab"%string)]
               [(code "n", "/tmp/q"%string)] "999" 3 Demo.world0 l w1);
      vm_compute; (reflexivity || discriminate)
  end.
Defined.


(** ** Reporting *)



(** C7 (as amended).  In a finished run that created a file, the status
    is 0 exactly when the close of its descriptor does not fail; and
    then all that standard output received is the path created and a
    newline, which is one line, the path, when the path holds no
    newline. *)
Theorem success_reports_name (E : env) (opts : list (Z * string)) (n : nat)
    (w : world) (st : Z) (w' : world) (evs : list event)
    (path : string) (fl md d : Z) :
  main E opts n w = Exit st w' ->
  trace w' = trace w ++ evs ->
  In (EvOpen path fl md d) evs ->
  0 <= d ->
  (st = 0 <-> close_fault E d = None) /\
  (st = 0 ->
   written 1 evs = [path +:+ nl] /\
   stdout evs = path +:+ nl /\
   (no_newline path = true -> lines (stdout evs) = [path]) /\
   fs w !! path = None /\
   fs w' !! path = Some (File (Z.land md (Z.lnot (umask E))) EmptyString)).
Proof.
  intros Hm Ht Hin Hd. pose proof (main_created E opts n w) as H. rewrite Hm in H.
  destruct H as [(_ & (evs' & Ht' & Hi) & _) |
                 (l & w1 & pre & path0 & d0 & tail & Hopt & Ht' & Hq & Hd0 & Hnone & Hfs & Hcl)];
    rewrite Ht in Ht'; apply app_inv_head in Ht'; subst evs.
  - exfalso. pose proof (inert_no_created _ _ Hi Hin) as Hc. simpl in Hc.
    apply Z.leb_gt in Hc. lia.
  - assert (Htl : forallb (fun x => negb (created x)) tail = true).
    { destruct (close_fault E d0).
      - destruct Hcl as (_ & msg & ->). reflexivity.
      - destruct Hcl as (_ & frees & Hfr & ->). simpl. rewrite forallb_app. simpl.
        rewrite andb_true_r. apply (forallb_weaken is_free); [|exact Hfr]. now intros []. }
    assert (Heq : EvOpen path fl md d = EvOpen path0 open_flags (mode l) d0).
    { apply (created_unique pre _ tail); auto. simpl. now apply Z.leb_le. }
    injection Heq as -> -> -> ->.
    destruct (close_fault E d0) as [e|].
    + destruct Hcl as (-> & _). split; [split; discriminate | discriminate].
    + destruct Hcl as (-> & frees & Hfr & ->). split; [tauto|]. intros _.
      assert (Hw : written 1 (pre ++ EvOpen path0 open_flags (mode l) d0 ::
                     EvClose d0 0 :: EvWrite 1 (path0 +:+ nl) :: frees ++ [EvExit 0])
                   = [path0 +:+ nl]).
      { rewrite written_app, (written_quiet _ _ Hq). simpl.
        rewrite written_app, (written_free _ _ Hfr). reflexivity. }
      unfold stdout. rewrite Hw, stdout_one.
      split; [reflexivity|]. split; [reflexivity|].
      split; [intros Hn; exact (lines_no_newline path0 EmptyString Hn)|].
      split; [exact Hnone | rewrite Hfs; apply lookup_insert_eq].
Qed.

Lemma success_reports_name_witness :
  exists st w' evs,
    main Demo.env0 [(code "p", "ab"%string); (code "s", ".tmp"%string);
                    (code "m", "0644"%string)] 2 Demo.world0 = Exit st w' /\
    trace w' = evs /\
    (st = 0 <-> close_fault Demo.env0 3 = None) /\
    (st = 0 ->
     written 1 evs = ["/tmp/abBBB.tmp" +:+ nl] /\
     stdout evs = "/tmp/abBBB.tmp" +:+ nl /\
     (no_newline "/tmp/abBBB.tmp" = true -> lines (stdout evs) = ["/tmp/abBBB.tmp"%string]) /\
     fs Demo.world0 !! "/tmp/abBBB.tmp"%string = None /\
     fs w' !! "/tmp/abBBB.tmp"%string
     = Some (File (Z.land 420 (Z.lnot (umask Demo.env0))) EmptyString)).
Proof.
  let r := eval vm_compute in
    (main Demo.env0 [(code "p", "ab"%string); (code "s", ".tmp"%string);
                     (code "m", "0644"%string)] 2 Demo.world0) in
  lazymatch r with
  | Exit ?st ?w =>
      exists st, w, (trace w);
      split; [vm_compute; reflexivity|]; split; [reflexivity|];
      apply (success_reports_name Demo.env0
               [(code "p", "ab"%string); (code "s", ".tmp"%string);
                (code "m", "0644"%string)] 2 Demo.world0 st w (trace w)
               "/tmp/abBBB.tmp" open_flags 420 3);
      [vm_compute; reflexivity | vm_compute; reflexivity | vm_compute; tauto | lia]
  end.
Defined.

(** C7, as the specification words it, fails: the argument of [-n] may
    hold a newline, and the run that creates that file, closes it and
    ends with status 0 has put two lines on standard output. *)
Lemma success_reports_two_lines :
  exists w' evs,
    main Demo.env0 [(code "n", "/tmp/a" +:+ nl +:+ "b")] 0 Demo.world0 = Exit 0 w' /\
    trace w' = trace Demo.world0 ++ evs /\
    In (EvOpen ("/tmp/a" +:+ nl +:+ "b") open_flags o600 3) evs /\
    In (EvClose 3 0) evs /\
    lines (stdout evs) = ["/tmp/a"%string; "b"%string].
Proof.
  let r := eval vm_compute in
    (main Demo.env0 [(code "n", "/tmp/a" +:+ nl +:+ "b")] 0 Demo.world0) in
  lazymatch r with
  | Exit ?st ?w =>
      exists w, (trace w);
      split; [vm_compute; reflexivity|]; split; [reflexivity|];
      split; [vm_compute; tauto|]; split; [vm_compute; tauto|];
      vm_compute; reflexivity
  end.
Qed.




(** * Properties of ischroot *)

(** ** The library's string functions, and the option loop *)

Section IschrootFacts.
Import Ischroot.

Lemma strcmp_eq a : forall b, strcmp a b = 0 <-> a = b.
Proof.
  induction a as [|x a IH]; intros [|y b]; simpl; try (split; [discriminate|discriminate]);
    [tauto|].
  destruct (Ascii.eqb_spec x y) as [->|Hne].
  - rewrite IH. split; [now intros -> | now intros [= ->]].
  - split; [destruct (code x <? code y); discriminate | intros [= ? ?]; contradiction].
Qed.

Lemma starts_with_spec n : forall h, starts_with n h = true <-> exists b, h = n +:+ b.
Proof.
  induction n as [|x n IH]; intros h; simpl.
  - split; [intros _; now exists h | reflexivity].
  - destruct h as [|y h].
    + split; [discriminate | intros [b Hb]; discriminate].
    + rewrite andb_true_iff, IH. split.
      * intros [Hxy [b ->]]. apply Ascii.eqb_eq in Hxy as ->. now exists b.
      * intros [b Hb]. injection Hb as -> ->. split; [apply Ascii.eqb_refl | now exists b].
Qed.

Lemma strstr_spec h n : is_Some (strstr h n) <-> exists a b, h = a +:+ n +:+ b.
Proof.
  induction h as [|y h IH].
  - simpl. destruct (starts_with n EmptyString) eqn:Hs.
    + apply starts_with_spec in Hs as [b Hb]. split; [|eauto].
      intros _. exists EmptyString, b. exact Hb.
    + split; [intros [? ?]; discriminate|].
      intros (a & b & Hab). destruct a; [|discriminate].
      assert (starts_with n EmptyString = true) by (apply starts_with_spec; eauto).
      congruence.
  - cbn [strstr]. destruct (starts_with n (String y h)) eqn:Hs.
    + apply starts_with_spec in Hs as [b Hb]. split; [|eauto].
      intros _. exists EmptyString, b. exact Hb.
    + rewrite IH. split.
      * intros (a & b & ->). now exists (String y a), b.
      * intros (a & b & Hab). destruct a as [|z a].
        -- assert (starts_with n (String y h) = true) by (apply starts_with_spec; eauto).
           congruence.
        -- injection Hab as -> ->. eauto.
Qed.


Variable H : host.

Lemma isfakechroot_cases tr :
  exists v evs,
    isfakechroot H tr = Ret v (tr ++ evs) /\
    forallb is_stat evs = false /\ stderr_of evs = [] /\
    forallb (fun c => match c with CGetenv _ => true | _ => false end) evs = true /\
    (v = 0 \/ v = 1) /\ (v = 1 <-> in_fakechroot H).
Proof.
  unfold isfakechroot, in_fakechroot, bind, getenv, ret.
  destruct (h_getenv H "FAKECHROOT") as [f|] eqn:Hf.
  2:{ exists 0, [CGetenv "FAKECHROOT"]. repeat split; auto; try discriminate.
      intros (? & _); discriminate. }
  destruct (Z.eqb_spec (strcmp "true" f) 0) as [He|He].
  2:{ exists 0, [CGetenv "FAKECHROOT"]. repeat split; auto; try discriminate.
      intros (Heq & _). exfalso. apply He. apply strcmp_eq. congruence. }
  apply strcmp_eq in He. subst f.
  destruct (h_getenv H "FAKECHROOT_BASE") as [b|] eqn:Hb.
  2:{ exists 0, [CGetenv "FAKECHROOT"; CGetenv "FAKECHROOT_BASE"].
      rewrite <- app_assoc. repeat split; auto; try discriminate.
      intros (_ & [? ?] & _); discriminate. }
  destruct (h_getenv H "LD_PRELOAD") as [ld|] eqn:Hl.
  2:{ exists 0, [CGetenv "FAKECHROOT"; CGetenv "FAKECHROOT_BASE"; CGetenv "LD_PRELOAD"].
      rewrite <- !app_assoc. repeat split; auto; try discriminate.
      intros (_ & _ & ? & ? & ?); discriminate. }
  pose proof (strstr_spec ld "libfakechroot.so") as Hs.
  destruct (strstr ld "libfakechroot.so") as [t|].
  - exists 1, [CGetenv "FAKECHROOT"; CGetenv "FAKECHROOT_BASE"; CGetenv "LD_PRELOAD"].
    rewrite <- !app_assoc. repeat split; auto.
    destruct (proj1 Hs) as (a0 & b0 & ->); eauto.
  - exists 0, [CGetenv "FAKECHROOT"; CGetenv "FAKECHROOT_BASE"; CGetenv "LD_PRELOAD"].
    rewrite <- !app_assoc. repeat split; auto; try discriminate.
    intros (_ & _ & a0 & b0 & [= ->]).
    destruct (proj2 Hs) as [? ?]; [eauto | discriminate].
Qed.

Lemma option_loop_flags opts : forall df dt tr,
  only_flags opts = true ->
  option_loop H opts df dt tr
  = Ret (if has_flag "f" opts then 1 else df, if has_flag "t" opts then 1 else dt) tr.
Proof.
  induction opts as [|c rest IH]; intros df dt tr Hf; [reflexivity|].
  simpl in Hf. apply andb_prop in Hf as [Hc Hr].
  cbn [option_loop has_flag existsb].
  destruct (Z.eqb_spec c (code "f")) as [->|Hnf].
  - rewrite IH by exact Hr. change (code "f" =? code "t") with false.
    unfold has_flag. cbn [orb]. now destruct (existsb _ rest).
  - destruct (Z.eqb_spec c (code "t")) as [->|Hnt]; [|discriminate].
    rewrite IH by exact Hr. change (code "t" =? code "f") with false.
    unfold has_flag. cbn [orb].
    now destruct (existsb (fun x => x =? code "t") rest).
Qed.

Lemma has_flag_app c a b : has_flag c (a ++ b) = has_flag c a || has_flag c b.
Proof. apply existsb_app. Qed.

End IschrootFacts.

(** ** Runs of [main] with flags only *)

Section IschrootRuns.
Import Ischroot.
Variable H : host.

(** [main] once the options are read and are flags only. *)
Lemma main_after_flags p opts tr :
  only_flags opts = true ->
  has_flag "f" opts && has_flag "t" opts = false ->
  main H p opts tr =
  bind (isfakechroot H)
    (fun fake =>
       bind (if negb (fake =? 0) then ret 0 else ischroot H p)
         (fun st =>
            ret (if st =? 2
                 then if has_flag "f" opts then 1
                      else if has_flag "t" opts then 0 else st
                 else st))) tr.
Proof.
  intros Hf Hb. unfold main. unfold bind at 1.
  rewrite (option_loop_flags H opts 0 0 tr Hf). cbn [fst snd].
  destruct (has_flag "f" opts), (has_flag "t" opts); try discriminate; reflexivity.
Qed.

Lemma ischroot_values p tr :
  exists st evs, ischroot H p tr = Ret st (tr ++ evs) /\ (st = 0 \/ st = 1 \/ st = 2) /\
                 stderr_of evs = [].
Proof.
  destruct p; unfold ischroot, ischroot_linux, ischroot_hurd, ischroot_other, bind, stat, ret.
  - destruct (h_stat H "/") as [a|]; [|exists 2, [CStat "/"]; auto].
    destruct (h_stat H "/proc/1/root") as [b|];
      [|exists 2, [CStat "/"; CStat "/proc/1/root"]; rewrite <- app_assoc; auto].
    destruct ((st_dev a =? st_dev b) && (st_ino a =? st_ino b));
      eexists _, [CStat "/"; CStat "/proc/1/root"]; rewrite <- app_assoc; auto.
  - destruct (h_stat H "/") as [a|]; [|exists 2, [CStat "/"]; auto].
    destruct (st_dev a =? 3); eexists _, [CStat "/"]; auto.
  - exists 2, []. rewrite app_nil_r. auto.
Qed.

End IschrootRuns.

(** X1.  [isfakechroot] returns 1 exactly when [FAKECHROOT] is the
    string [true], [FAKECHROOT_BASE] is set (to anything, the empty
    string too) and [LD_PRELOAD] holds [libfakechroot.so] somewhere;
    otherwise it returns 0.  It only reads the environment. *)
Theorem isfakechroot_iff (H : Ischroot.host) (tr : list Ischroot.call) :
  exists v evs,
    Ischroot.isfakechroot H tr = Ischroot.Ret v (tr ++ evs) /\
    (v = 0 \/ v = 1) /\
    (v = 1 <-> Ischroot.in_fakechroot H) /\
    forallb (fun c => match c with Ischroot.CGetenv _ => true | _ => false end) evs = true.
Proof.
  destruct (isfakechroot_cases H tr) as (v & evs & Hr & _ & _ & Hg & Hv & Hiff).
  exists v, evs. auto.
Qed.

(** X2.  The exit status on Linux, for options that are flags and not
    both of them: 0 under fakechroot; else 0 when [/] and
    [/proc/1/root] are different files, 1 when they are the same file;
    and when either cannot be examined, 1 with [-f], 0 with [-t], 2
    with neither. *)
Theorem ischroot_linux_status (H : Ischroot.host) (opts : list Z)
    (tr : list Ischroot.call) :
  Ischroot.only_flags opts = true ->
  Ischroot.has_flag "f" opts && Ischroot.has_flag "t" opts = false ->
  exists st tr',
    Ischroot.main H Ischroot.Linux opts tr = Ischroot.Ret st tr' /\
    (Ischroot.in_fakechroot H -> st = 0) /\
    (~ Ischroot.in_fakechroot H ->
     match Ischroot.h_stat H "/", Ischroot.h_stat H "/proc/1/root" with
     | Some a, Some b =>
         if (Ischroot.st_dev a =? Ischroot.st_dev b) && (Ischroot.st_ino a =? Ischroot.st_ino b)
         then st = 1 else st = 0
     | _, _ =>
         st = if Ischroot.has_flag "f" opts then 1
              else if Ischroot.has_flag "t" opts then 0 else 2
     end).
Proof.
  intros Hf Hb. rewrite (main_after_flags H _ opts tr Hf Hb).
  destruct (isfakechroot_cases H tr) as (v & evs & Hr & _ & _ & _ & Hv & Hiff).
  unfold Ischroot.bind at 1. rewrite Hr.
  destruct Hv as [-> | ->].
  - cbn [Z.eqb negb].
    unfold Ischroot.ischroot, Ischroot.ischroot_linux, Ischroot.bind, Ischroot.stat,
      Ischroot.ret.
    destruct (Ischroot.h_stat H "/") as [a|];
      [destruct (Ischroot.h_stat H "/proc/1/root") as [b|];
        [destruct ((Ischroot.st_dev a =? Ischroot.st_dev b) &&
                   (Ischroot.st_ino a =? Ischroot.st_ino b))|]|];
      eexists _, _; (split; [reflexivity|]); cbn [Z.eqb Pos.eqb];
      (split; [intros Hfk; apply Hiff in Hfk; discriminate | intros _; reflexivity]).
  - cbn. eexists _, _. split; [reflexivity|]. split; [reflexivity|].
    intros Hn. elim Hn. now apply Hiff.
Qed.

Lemma ischroot_linux_status_witness :
  (exists st tr',
     Ischroot.main Ischroot.jail_host Ischroot.Linux [code "f"] [] = Ischroot.Ret st tr' /\
     st = 0) /\
  (exists st tr',
     Ischroot.main Ischroot.blind_host Ischroot.Linux [code "f"] [] = Ischroot.Ret st tr' /\
     st = 1).
Proof.
  split.
  - destruct (ischroot_linux_status Ischroot.jail_host [code "f"] [] eq_refl eq_refl)
      as (st & tr' & Hr & _ & Hst).
    exists st, tr'. split; [exact Hr|]. apply Hst.
    intros (Hx & _). discriminate.
  - destruct (ischroot_linux_status Ischroot.blind_host [code "f"] [] eq_refl eq_refl)
      as (st & tr' & Hr & _ & Hst).
    exists st, tr'. split; [exact Hr|]. apply Hst.
    intros (Hx & _). discriminate.
Defined.

(** X3.  On every modelled system, with flags only and not both, the
    run returns 0, 1 or 2 and writes nothing to standard error; it
    returns 2 only when neither [-f] nor [-t] was given. *)
Theorem ischroot_status_range (H : Ischroot.host) (p : Ischroot.platform)
    (opts : list Z) (tr : list Ischroot.call) :
  Ischroot.only_flags opts = true ->
  Ischroot.has_flag "f" opts && Ischroot.has_flag "t" opts = false ->
  exists st evs,
    Ischroot.main H p opts tr = Ischroot.Ret st (tr ++ evs) /\
    (st = 0 \/ st = 1 \/ st = 2) /\
    (st = 2 -> Ischroot.has_flag "f" opts = false /\ Ischroot.has_flag "t" opts = false) /\
    Ischroot.stderr_of evs = [].
Proof.
  intros Hf Hb. rewrite (main_after_flags H p opts tr Hf Hb).
  destruct (isfakechroot_cases H tr) as (v & evs & Hr & _ & He & _ & Hv & _).
  unfold Ischroot.bind at 1. rewrite Hr.
  destruct Hv as [-> | ->].
  - cbn [Z.eqb negb].
    destruct (ischroot_values H p (tr ++ evs)) as (st & evs2 & Hr2 & Hst & He2).
    unfold Ischroot.bind. rewrite Hr2. unfold Ischroot.ret.
    eexists _, (evs ++ evs2). rewrite app_assoc. split; [reflexivity|].
    assert (Hse : forall a b, Ischroot.stderr_of a = [] -> Ischroot.stderr_of b = [] ->
                              Ischroot.stderr_of (a ++ b) = []).
    { intros a b Ha Hb'. induction a as [|[] a IH]; simpl in *; auto; discriminate. }
    rewrite (Hse _ _ He He2).
    destruct Hst as [-> | [-> | ->]]; cbn [Z.eqb Pos.eqb];
      destruct (Ischroot.has_flag "f" opts), (Ischroot.has_flag "t" opts);
      repeat split; auto; discriminate.
  - cbn. exists 0, evs. repeat split; auto; discriminate.
Qed.

Lemma ischroot_status_range_witness :
  exists st evs,
    Ischroot.main Ischroot.blind_host Ischroot.Linux [code "t"; code "t"] []
      = Ischroot.Ret st ([] ++ evs) /\
    (st = 0 \/ st = 1 \/ st = 2) /\
    (st = 2 -> Ischroot.has_flag "f" [code "t"; code "t"] = false /\
               Ischroot.has_flag "t" [code "t"; code "t"] = false) /\
    Ischroot.stderr_of evs = [].
Proof.
  exact (ischroot_status_range Ischroot.blind_host Ischroot.Linux [code "t"; code "t"] []
           eq_refl eq_refl).
Defined.

(** X4.  The flags change nothing but a failed detection: when the run
    without options returns a status other than 2, the run with flags
    (not both) returns the same status after the same calls. *)
Theorem ischroot_flags_only_on_failure (H : Ischroot.host) (p : Ischroot.platform)
    (opts : list Z) (tr : list Ischroot.call) (st : Z) (tr' : list Ischroot.call) :
  Ischroot.only_flags opts = true ->
  Ischroot.has_flag "f" opts && Ischroot.has_flag "t" opts = false ->
  Ischroot.main H p [] tr = Ischroot.Ret st tr' ->
  st <> 2 ->
  Ischroot.main H p opts tr = Ischroot.Ret st tr'.
Proof.
  intros Hf Hb Hrun Hst.
  rewrite (main_after_flags H p opts tr Hf Hb).
  rewrite (main_after_flags H p [] tr eq_refl eq_refl) in Hrun.
  unfold Ischroot.bind in *.
  destruct (Ischroot.isfakechroot H tr) as [v tr1|s tr1]; [|discriminate].
  destruct ((if negb (v =? 0) then Ischroot.ret 0 else Ischroot.ischroot H p) tr1)
    as [st1 tr2|s tr2]; [|discriminate].
  unfold Ischroot.ret in *. cbn [Ischroot.has_flag existsb] in Hrun.
  destruct (Z.eqb_spec st1 2) as [->|Hne].
  - injection Hrun as <- <-. now elim Hst.
  - exact Hrun.
Qed.

Lemma ischroot_flags_only_on_failure_witness :
  Ischroot.main Ischroot.jail_host Ischroot.Linux [code "f"] []
  = Ischroot.Ret 0 [Ischroot.CGetenv "FAKECHROOT"; Ischroot.CStat "/";
                    Ischroot.CStat "/proc/1/root"].
Proof.
  apply (ischroot_flags_only_on_failure Ischroot.jail_host Ischroot.Linux [code "f"] []);
    [reflexivity | reflexivity | reflexivity | discriminate].
Defined.

(** X5.  With both [-f] and [-t] the run ends with status 1 after two
    lines on standard error, before the environment or any file is
    looked at. *)
Theorem ischroot_both_defaults (H : Ischroot.host) (p : Ischroot.platform)
    (opts : list Z) (tr : list Ischroot.call) :
  Ischroot.only_flags opts = true ->
  Ischroot.has_flag "f" opts = true ->
  Ischroot.has_flag "t" opts = true ->
  Ischroot.main H p opts tr
  = Ischroot.Exit 1 (tr ++ [Ischroot.CStderr Ischroot.both_defaults;
                            Ischroot.CStderr Ischroot.try_help; Ischroot.CExit 1]).
Proof.
  intros Hf Hff Ht. unfold Ischroot.main. unfold Ischroot.bind at 1.
  rewrite (option_loop_flags H opts 0 0 tr Hf), Hff, Ht. cbn.
  unfold Ischroot.exit. now rewrite <- !app_assoc.
Qed.

Lemma ischroot_both_defaults_witness :
  Ischroot.main Ischroot.fake_host Ischroot.Linux [code "t"; code "f"] []
  = Ischroot.Exit 1 ([] ++ [Ischroot.CStderr Ischroot.both_defaults;
                            Ischroot.CStderr Ischroot.try_help; Ischroot.CExit 1]).
Proof.
  apply (ischroot_both_defaults Ischroot.fake_host Ischroot.Linux [code "t"; code "f"] []);
    reflexivity.
Defined.

(** X6.  Under fakechroot the status is 0 on every system and with any
    one flag, and [stat] is never called: the run reads the three
    variables and returns. *)
Theorem ischroot_fakechroot_first (H : Ischroot.host) (p : Ischroot.platform)
    (opts : list Z) (tr : list Ischroot.call) :
  Ischroot.in_fakechroot H ->
  Ischroot.only_flags opts = true ->
  Ischroot.has_flag "f" opts && Ischroot.has_flag "t" opts = false ->
  Ischroot.main H p opts tr
  = Ischroot.Ret 0 (tr ++ [Ischroot.CGetenv "FAKECHROOT";
                           Ischroot.CGetenv "FAKECHROOT_BASE";
                           Ischroot.CGetenv "LD_PRELOAD"]).
Proof.
  intros (Hfk & [b Hb] & a0 & b0 & Hld) Hf Hnb.
  rewrite (main_after_flags H p opts tr Hf Hnb).
  unfold Ischroot.bind at 1.
  unfold Ischroot.isfakechroot, Ischroot.bind, Ischroot.getenv, Ischroot.ret.
  rewrite Hfk, Hb, Hld. cbn [Ischroot.strcmp Ascii.eqb Bool.eqb Z.eqb].
  pose proof (proj2 (strstr_spec (a0 +:+ "libfakechroot.so" +:+ b0) "libfakechroot.so")) as Hs.
  destruct (Ischroot.strstr (a0 +:+ "libfakechroot.so" +:+ b0) "libfakechroot.so").
  - cbn. now rewrite <- !app_assoc.
  - destruct Hs as [? ?]; [eauto | discriminate].
Qed.

Lemma ischroot_fakechroot_first_witness :
  Ischroot.main Ischroot.fake_host Ischroot.Hurd [code "f"] []
  = Ischroot.Ret 0 ([] ++ [Ischroot.CGetenv "FAKECHROOT";
                           Ischroot.CGetenv "FAKECHROOT_BASE";
                           Ischroot.CGetenv "LD_PRELOAD"]).
Proof.
  apply (ischroot_fakechroot_first Ischroot.fake_host Ischroot.Hurd [code "f"] []);
    [|reflexivity|reflexivity].
  split; [reflexivity|]. split; [eexists; reflexivity|].
  exists "/usr/lib/fakechroot/"%string, ""%string. reflexivity.
Defined.

(** X7.  An option that is not a flag ends the run where it stands,
    whatever precedes (both flags too) and whatever follows: [-h] and
    [-V] with status 0 and their text on standard error, an option
    [getopt_long] refuses with status 1 and, on standard error, the
    line [getopt_long] wrote about it followed by the hint; nothing is
    probed. *)
Theorem ischroot_option_ends_run (H : Ischroot.host) (p : Ischroot.platform)
    (pre post : list Z) (c : Z) (tr : list Ischroot.call) :
  Ischroot.only_flags pre = true ->
  c <> code "f" -> c <> code "t" ->
  Ischroot.main H p (pre ++ c :: post) tr
  = if c =? code "h"
    then Ischroot.Exit 0 (tr ++ [Ischroot.CStderr Ischroot.usage_text; Ischroot.CExit 0])
    else if c =? code "V"
    then Ischroot.Exit 0 (tr ++ [Ischroot.CStderr (Ischroot.version_text H); Ischroot.CExit 0])
    else Ischroot.Exit 1 (tr ++ [Ischroot.CStderr (Ischroot.h_getopt_error H);
                                 Ischroot.CStderr Ischroot.try_help; Ischroot.CExit 1]).
Proof.
  intros Hf Hnf Hnt. unfold Ischroot.main. unfold Ischroot.bind at 1.
  assert (Hloop : forall df dt,
            Ischroot.option_loop H (pre ++ c :: post) df dt tr
            = Ischroot.option_loop H (c :: post) 
                (if Ischroot.has_flag "f" pre then 1 else df)
                (if Ischroot.has_flag "t" pre then 1 else dt) tr).
  { clear -Hf. induction pre as [|x pre IH]; intros df dt; [reflexivity|].
    simpl in Hf. apply andb_prop in Hf as [Hx Hr].
    cbn [app Ischroot.option_loop Ischroot.has_flag existsb].
    destruct (Z.eqb_spec x (code "f")) as [->|Hxf].
    - rewrite IH by exact Hr. change (code "f" =? code "t") with false.
      unfold Ischroot.has_flag. cbn [orb].
      now destruct (existsb (fun x => x =? code "f") pre).
    - destruct (Z.eqb_spec x (code "t")) as [->|Hxt]; [|discriminate].
      rewrite IH by exact Hr. unfold Ischroot.has_flag. cbn [orb].
      now destruct (existsb (fun x => x =? code "t") pre). }
  rewrite Hloop. cbn [Ischroot.option_loop].
  apply Z.eqb_neq in Hnf, Hnt. rewrite Hnf, Hnt.
  destruct (c =? code "h"); [cbn; unfold Ischroot.exit; now rewrite <- app_assoc|].
  destruct (c =? code "V"); cbn; unfold Ischroot.exit; now rewrite <- !app_assoc.
Qed.

Lemma ischroot_option_ends_run_witness :
  Ischroot.main Ischroot.jail_host Ischroot.Linux ([code "f"; code "t"] ++ code "h" :: [code "?"]) []
  = Ischroot.Exit 0 ([] ++ [Ischroot.CStderr Ischroot.usage_text; Ischroot.CExit 0]) /\
  Ischroot.main Ischroot.jail_host Ischroot.Linux ([code "f"] ++ code "?" :: [code "h"]) []
  = Ischroot.Exit 1 ([] ++ [Ischroot.CStderr (Ischroot.h_getopt_error Ischroot.jail_host);
                            Ischroot.CStderr Ischroot.try_help; Ischroot.CExit 1]).
Proof.
  split.
  - apply (ischroot_option_ends_run Ischroot.jail_host Ischroot.Linux [code "f"; code "t"]
             [code "?"] (code "h") []); [reflexivity | discriminate | discriminate].
  - apply (ischroot_option_ends_run Ischroot.jail_host Ischroot.Linux [code "f"]
             [code "h"] (code "?") []); [reflexivity | discriminate | discriminate].
Defined.

(** X8.  Outside fakechroot, with flags only and not both: on Hurd the
    status is 1 when [/] is on device 3 and 0 when it is on another
    device; when [/] cannot be examined, and always on a system the
    program does not know, it is 1 with [-f], 0 with [-t] and 2 with
    neither. *)
Theorem ischroot_hurd_other_status (H : Ischroot.host) (opts : list Z)
    (tr : list Ischroot.call) :
  Ischroot.only_flags opts = true ->
  Ischroot.has_flag "f" opts && Ischroot.has_flag "t" opts = false ->
  ~ Ischroot.in_fakechroot H ->
  let fallback := if Ischroot.has_flag "f" opts then 1
                  else if Ischroot.has_flag "t" opts then 0 else 2 in
  (exists tr',
     Ischroot.main H Ischroot.Hurd opts tr
     = Ischroot.Ret match Ischroot.h_stat H "/" with
                    | Some a => if Ischroot.st_dev a =? 3 then 1 else 0
                    | None => fallback
                    end tr') /\
  (exists tr', Ischroot.main H Ischroot.Other opts tr = Ischroot.Ret fallback tr').
Proof.
  intros Hf Hb Hn fallback.
  rewrite !(main_after_flags H _ opts tr Hf Hb).
  destruct (isfakechroot_cases H tr) as (v & evs & Hr & _ & _ & _ & Hv & Hiff).
  unfold Ischroot.bind at 1 3. rewrite Hr.
  destruct Hv as [-> | ->]; [|elim Hn; now apply Hiff].
  cbn [Z.eqb negb].
  unfold Ischroot.ischroot, Ischroot.ischroot_hurd, Ischroot.ischroot_other,
    Ischroot.bind, Ischroot.stat, Ischroot.ret.
  split.
  - destruct (Ischroot.h_stat H "/") as [a|]; [destruct (Ischroot.st_dev a =? 3)|];
      eexists; reflexivity.
  - eexists; reflexivity.
Qed.

Lemma ischroot_hurd_other_status_witness :
  (exists tr',
     Ischroot.main Ischroot.jail_host Ischroot.Hurd [code "t"] [] = Ischroot.Ret 0 tr') /\
  (exists tr',
     Ischroot.main Ischroot.jail_host Ischroot.Other [code "t"] [] = Ischroot.Ret 0 tr').
Proof.
  apply (ischroot_hurd_other_status Ischroot.jail_host [code "t"] []);
    [reflexivity | reflexivity |].
  intros (Hx & _). discriminate.
Defined.

(** * Further properties of tempfile *)

(** ** What the mode parser accepts *)


(** X9.  The strings [parsemode] accepts are exactly the empty string
    and the strings made of white space, then one optional sign, then
    at least one octal digit, whose digits denote at most 07777, and
    zero if the sign is a minus.  An accepted string gives the value
    of its digits, which lies in [0, 07777]; any other string gives 1
    and leaves the mask alone. *)
Theorem parsemode_accepts_iff (s : string) (m : Z) :
  let accepted :=
    at_nul s = true \/
    (octal_string (snd (mode_body s)) = true /\
     (if fst (mode_body s) then octal_value (snd (mode_body s)) = 0
      else octal_value (snd (mode_body s)) <= o7777)) in
  (fst (parsemode s m) = 0 <-> accepted) /\
  (accepted -> parsemode s m = (0, mode_of_arg s) /\ 0 <= mode_of_arg s <= o7777) /\
  (~ accepted -> parsemode s m = (1, m)).
Proof.
  intros accepted. destruct (parsemode_decides s m) as [Hyes Hno]. fold accepted in Hyes, Hno.
  assert (Hdec : accepted \/ ~ accepted).
  { unfold accepted. destruct (at_nul s); [now left; left|].
    destruct (octal_string (snd (mode_body s))); [|right; intros [?|[? _]]; discriminate].
    destruct (fst (mode_body s)).
    - destruct (Z.eq_dec (octal_value (snd (mode_body s))) 0); [left; right; auto|].
      right. intros [?|[_ ?]]; [discriminate | contradiction].
    - destruct (Z_le_dec (octal_value (snd (mode_body s))) o7777); [left; right; auto|].
      right. intros [?|[_ ?]]; [discriminate | contradiction]. }
  split; [|split].
  - split.
    + intros H0. destruct Hdec as [Ha|Hn]; [exact Ha|].
      rewrite (Hno Hn) in H0. discriminate.
    + intros Ha. now rewrite (Hyes Ha).
  - intros Ha. split; [exact (Hyes Ha)|]. exact (parsemode_range s m _ (Hyes Ha)).
  - exact Hno.
Qed.

Lemma parsemode_accepts_iff_witness :
  parsemode "-000" o600 = (0, 0) /\ parsemode " +0755" o600 = (0, 493) /\
  parsemode "-1" o600 = (1, o600) /\ parsemode "0x1ff" o600 = (1, o600).
Proof.
  split; [|split; [|split]].
  - apply (proj1 (proj2 (parsemode_accepts_iff "-000" o600))). right. split; reflexivity.
  - apply (proj1 (proj2 (parsemode_accepts_iff " +0755" o600))). right.
    split; [reflexivity | vm_compute; discriminate].
  - apply (proj2 (proj2 (parsemode_accepts_iff "-1" o600))).
    intros [Hx | [_ Hx]]; [discriminate | vm_compute in Hx; discriminate].
  - apply (proj2 (proj2 (parsemode_accepts_iff "0x1ff" o600))).
    intros [Hx | [Hx _]]; discriminate.
Defined.


(** X10.  When the option loop ends without leaving, each setting is
    that of its last occurrence, whatever the other options are: the
    prefix, the suffix and the directory are the arguments of the last
    [-p], [-s] and [-d] (null without one), and the mask is the value
    of the last [-m] argument, 0600 without one; the mask lies in
    [0, 07777]. *)
Theorem last_option_wins (E : env) (opts : list (Z * string)) (w : world)
    (l : locals) (w1 : world) :
  getopt_loop E opts init_locals w = Ret l w1 ->
  pfx l = last_arg (code "p") opts None /\
  sfx l = last_arg (code "s") opts None /\
  dir l = last_arg (code "d") opts None /\
  mode l = from_option mode_of_arg o600 (last_arg (code "m") opts None) /\
  0 <= mode l <= o7777.
Proof.
  intros Hrun.
  destruct (getopt_loop_fields E opts _ _ _ _ Hrun) as (Hp & Hs & Hd & Hm & Hr & _).
  repeat split; auto; apply Hr; cbn; unfold o600, o7777; lia.
Qed.

Lemma last_option_wins_witness :
  exists l w1,
    getopt_loop Demo.env0
      [(code "m", "0644"%string); (code "p", "ab"%string); (code "m", "0640"%string);
       (code "p", "cd"%string)] init_locals Demo.world0 = Ret l w1 /\
    pfx l = Some "cd"%string /\ sfx l = None /\ dir l = None /\ mode l = 416 /\
    0 <= mode l <= o7777.
Proof.
  let r := eval vm_compute in
    (getopt_loop Demo.env0
       [(code "m", "0644"%string); (code "p", "ab"%string); (code "m", "0640"%string);
        (code "p", "cd"%string)] init_locals Demo.world0) in
  lazymatch r with
  | Ret ?l ?w1 =>
      exists l, w1; split; [vm_compute; reflexivity|];
      apply (last_option_wins Demo.env0
               [(code "m", "0644"%string); (code "p", "ab"%string);
                (code "m", "0640"%string); (code "p", "cd"%string)] Demo.world0 l w1);
      vm_compute; reflexivity
  end.
Defined.

(** X11.  When the options before it are read without leaving,
    [--help] ends the run with status 0 and the usage text on standard
    output, [--version] with status 0 and the version line on standard
    output, and an option [getopt_long] refuses with status 1 and, on
    standard error, the line [getopt_long] wrote about it followed by
    the hint; in each case [open] is not called and every file is as
    it was, whatever follows. *)
Theorem option_ends_run (E : env) (pre post : list (Z * string)) (c : Z) (a : string)
    (n : nat) (w : world) (l : locals) (w1 : world) :
  getopt_loop E pre init_locals w = Ret l w1 ->
  c <> 0 -> c <> code "p" -> c <> code "s" -> c <> code "d" ->
  c <> code "m" -> c <> code "n" ->
  exists w' evs,
    main E (pre ++ (c, a) :: post) n w
      = Exit (if (c =? code "h") || (c =? code "v") then 0 else 1) w' /\
    trace w' = trace w ++ evs /\
    written 1 evs = (if c =? code "h" then [usage_text E]
                     else if c =? code "v" then [("tempfile " +:+ PACKAGE_VERSION E) +:+ nl]
                     else []) /\
    written 2 evs = (if (c =? code "h") || (c =? code "v") then []
                     else [getopt_error E; try_help E]) /\
    opens evs = [] /\
    fs w' = fs w.
Proof.
  intros Hopt H0 Hp Hs Hd Hm Hn.
  pose proof (getopt_loop_cases E pre init_locals w) as Hc. rewrite Hopt in Hc.
  destruct Hc as [Hf0 (evs0 & Ht0 & Ha0)].
  assert (Hw1 : forall k, written k evs0 = []).
  { intros k. apply written_quiet. exact (forallb_weaken _ _ _ alloc_quiet Ha0). }
  assert (Ho1 : opens evs0 = []).
  { apply opens_none. exact (forallb_weaken _ _ _ alloc_not_open Ha0). }
  unfold main. cbn [bind].
  rewrite (getopt_loop_app E pre _ _ _ _ _ Hopt). cbn [getopt_loop bind].
  unfold option_case.
  apply Z.eqb_neq in H0, Hp, Hs, Hd, Hm, Hn. rewrite H0, Hp, Hs, Hd, Hm, Hn.
  destruct (c =? code "h"); [|destruct (c =? code "v")]; cbn [orb].
  - rewrite usage_0. eexists _, _. split; [reflexivity|]. run.
    split; [rewrite Ht0; list_eq|].
    rewrite !written_app, opens_app, !Hw1, Ho1. auto.
  - run. eexists _, _. split; [reflexivity|]. run.
    split; [rewrite Ht0; list_eq|].
    rewrite !written_app, opens_app, !Hw1, Ho1. auto.
  - run. rewrite usage_1. eexists _, _. split; [reflexivity|]. run.
    split; [rewrite Ht0; list_eq|].
    rewrite !written_app, opens_app, !Hw1, Ho1. auto.
Qed.

Lemma option_ends_run_witness :
  (exists w' evs,
     main Demo.env0 ([(code "s", ".tmp"%string)] ++ (code "h", ""%string) ::
                     [(code "m", "999"%string)]) 1 Demo.world0 = Exit 0 w' /\
     trace w' = trace Demo.world0 ++ evs /\
     written 1 evs = [usage_text Demo.env0] /\
     written 2 evs = [] /\
     opens evs = [] /\
     fs w' = fs Demo.world0) /\
  (exists w' evs,
     main Demo.env0 ([(code "s", ".tmp"%string)] ++ (code "?", ""%string) ::
                     [(code "h", ""%string)]) 1 Demo.world0 = Exit 1 w' /\
     trace w' = trace Demo.world0 ++ evs /\
     written 1 evs = [] /\
     written 2 evs = [getopt_error Demo.env0; try_help Demo.env0] /\
     opens evs = [] /\
     fs w' = fs Demo.world0).
Proof.
  let r := eval vm_compute in
    (getopt_loop Demo.env0 [(code "s", ".tmp"%string)] init_locals Demo.world0) in
  lazymatch r with
  | Ret ?l ?w1 =>
      split;
      [ apply (option_ends_run Demo.env0 [(code "s", ".tmp"%string)]
                 [(code "m", "999"%string)] (code "h") "" 1 Demo.world0 l w1)
      | apply (option_ends_run Demo.env0 [(code "s", ".tmp"%string)]
                 [(code "h", ""%string)] (code "?") "" 1 Demo.world0 l w1) ];
      vm_compute; (reflexivity || discriminate)
  end.
Defined.

(** X12.  A finished run never changes or removes a file that existed:
    either no file changed at all, or exactly one path that did not
    exist now holds an empty file whose permission bits are the mask of
    the options without the bits of the umask, within [0, 07777]. *)
Theorem existing_files_untouched (E : env) (opts : list (Z * string)) (n : nat)
    (w : world) (st : Z) (w' : world) :
  main E opts n w = Exit st w' ->
  (forall p f, fs w !! p = Some f -> fs w' !! p = Some f) /\
  (fs w' = fs w \/
   exists path md,
     fs w !! path = None /\
     fs w' = <[path := File (Z.land md (Z.lnot (umask E))) EmptyString]> (fs w) /\
     md = from_option mode_of_arg o600 (last_arg (code "m") opts None) /\
     0 <= Z.land md (Z.lnot (umask E)) <= o7777 /\
     Z.land (Z.land md (Z.lnot (umask E))) (umask E) = 0).
Proof.
  intros Hm. pose proof (main_cases E opts n w) as H. rewrite Hm in H.
  destruct H as [[Hfs _] |
                 (l & w1 & pre & path & d & tail & Hopt & _ & _ & _ & Hnone & Hfs & _)].
  - rewrite Hfs. auto.
  - destruct (getopt_loop_fields E opts _ _ _ _ Hopt) as (_ & _ & _ & Hmode & Hr0 & _).
    assert (Hr : 0 <= mode l <= o7777) by (apply Hr0; cbn; unfold o600, o7777; lia).
    split.
    + intros p f Hp. rewrite Hfs. rewrite lookup_insert_ne; [exact Hp|].
      intros <-. congruence.
    + right. exists path, (mode l). split; [exact Hnone|]. split; [exact Hfs|].
      split; [exact Hmode|]. split.
      * rewrite <- Z.sub_land_same_l.
        assert (0 <= Z.land (mode l) (umask E)) by (apply Z.land_nonneg; lia).
        assert (0 <= Z.land (mode l) (Z.lnot (umask E))) by (apply Z.land_nonneg; lia).
        rewrite <- Z.sub_land_same_l in H0. lia.
      * rewrite <- Z.land_assoc, (Z.land_comm (Z.lnot _)), Z.land_lnot_diag.
        apply Z.land_0_r.
Qed.

Lemma existing_files_untouched_witness :
  exists st w',
    main Demo.env0 [(code "p", "ab"%string); (code "s", ".tmp"%string);
                    (code "m", "0666"%string)] 2 Demo.world0 = Exit st w' /\
    (forall p f, fs Demo.world0 !! p = Some f -> fs w' !! p = Some f) /\
    (fs w' = fs Demo.world0 \/
     exists path md,
       fs Demo.world0 !! path = None /\
       fs w' = <[path := File (Z.land md (Z.lnot 18)) EmptyString]> (fs Demo.world0) /\
       md = 438 /\
       0 <= Z.land md (Z.lnot 18) <= o7777 /\
       Z.land (Z.land md (Z.lnot 18)) 18 = 0).
Proof.
  let r := eval vm_compute in
    (main Demo.env0 [(code "p", "ab"%string); (code "s", ".tmp"%string);
                     (code "m", "0666"%string)] 2 Demo.world0) in
  lazymatch r with
  | Exit ?st ?w =>
      exists st, w; split; [vm_compute; reflexivity|];
      apply (existing_files_untouched Demo.env0
               [(code "p", "ab"%string); (code "s", ".tmp"%string);
                (code "m", "0666"%string)] 2 Demo.world0 st w);
      vm_compute; reflexivity
  end.
Defined.


(** X13.  Without [--name], when allocation and close do not fail: if
    the names [tempnam] returns collide up to some turn and the name
    [b] of the next turn does not, the run ends with status 0 given
    fuel for these turns or more; it has called [open] once for each
    name in turn, with the suffix, the flags of an exclusive create and
    the mask, has written the path of [b] to standard output alone,
    has created that one file, and leaves the heap and the open
    descriptors as they were. *)
Theorem generated_run_reports_first_free (E : env) (opts : list (Z * string))
    (w : world) (l : locals) (w1 : world) (bs : list string) (b : string) (m : nat) :
  getopt_loop E opts init_locals w = Ret l w1 ->
  name l = 0%N ->
  (forall j, alloc_fails E j = false) ->
  (forall d, close_fault E d = None) ->
  (forall i b', bs !! i = Some b' ->
     tempnam_name E (ntempnam w + i) (dir l) (pfx l) = Some b' /\
     excl_errno E (candidate b' l) w = Some EEXIST) ->
  tempnam_name E (ntempnam w + length bs) (dir l) (pfx l) = Some b ->
  excl_errno E (candidate b l) w = None ->
  exists w' evs,
    main E opts (S (length bs) + m) w = Exit 0 w' /\
    trace w' = trace w ++ evs /\
    written 1 evs = [candidate b l +:+ nl] /\
    written 2 evs = [] /\
    opens evs = map (fun x => (candidate x l, open_flags, mode l)) (bs ++ [b]) /\
    fs w' = <[candidate b l :=
                File (Z.land (mode l) (Z.lnot (umask E))) EmptyString]> (fs w) /\
    heap w' = heap w /\ fds w' = fds w.
Proof.
  intros Hopt Hname Hal Hcl Hbs Hb He.
  pose proof (getopt_loop_cases E opts init_locals w) as Hc. rewrite Hopt in Hc.
  destruct Hc as [Hf0 (evs0 & Ht0 & Ha0)].
  destruct (getopt_loop_fields E opts _ _ _ _ Hopt) as (_ & _ & _ & _ & _ & Hn0 & Hd0 & Hnt0).
  destruct (Hn0 Hname) as (_ & Hh0 & _).
  destruct (first_free E bs l w1 b m Hal) as
    (l' & w2 & evs & k & Hr2 & Ht2 & Hq2 & Ho2 & Hfd & Hk & Hfds & Hn & Hf & Hh & Hd & Hfs).
  { intros i b' Hi. destruct (Hbs i b' Hi) as [Hti Hei].
    now rewrite Hnt0, (excl_errno_fs E _ _ _ Hf0). }
  { now rewrite Hnt0. }
  { now rewrite (excl_errno_fs E _ _ _ Hf0). }
  destruct (finish_ok E l' w2 k Hfd) as (w' & frees & Hfin & Ht' & Hfr & Hfs' & Hh' & Hfds');
    [rewrite Hfds; apply fd_taken | apply Hcl | exact Hn | exact Hf |].
  unfold main. cbn [bind]. rewrite Hopt, Hname. cbn [negb N.eqb bind].
  rewrite Hr2. exists w'. eexists. split; [exact Hfin|].
  split; [rewrite Ht', Ht2, Ht0, Hd; list_eq|].
  assert (Hw0 : forall j, written j evs0 = []).
  { intros j. apply written_quiet. exact (forallb_weaken _ _ _ alloc_quiet Ha0). }
  assert (Ho0 : opens evs0 = []).
  { apply opens_none. exact (forallb_weaken _ _ _ alloc_not_open Ha0). }
  split.
  { rewrite !written_app, Hw0, (written_quiet _ _ Hq2). simpl.
    now rewrite written_app, (written_free _ _ Hfr). }
  split.
  { rewrite !written_app, Hw0, (written_quiet _ _ Hq2). simpl.
    now rewrite written_app, (written_free _ _ Hfr). }
  split.
  { rewrite !opens_app, Ho0, Ho2. simpl. rewrite opens_app.
    rewrite (opens_none frees) by exact (forallb_weaken _ _ _ free_not_open Hfr).
    simpl. now rewrite map_app. }
  split; [now rewrite Hfs', Hfs, Hf0|].
  split; [now rewrite Hh', Hh|].
  rewrite Hfds', Hfds, <- Hd0. now apply fd_returned.
Qed.

Lemma generated_run_reports_first_free_witness :
  exists w' evs,
    main Demo.env0 [(code "p", "ab"%string); (code "s", ".tmp"%string)] 2 Demo.world0
      = Exit 0 w' /\
    trace w' = trace Demo.world0 ++ evs /\
    written 1 evs = ["/tmp/abBBB.tmp" +:+ nl] /\
    written 2 evs = [] /\
    opens evs = [("/tmp/abAAA.tmp"%string, open_flags, o600);
                 ("/tmp/abBBB.tmp"%string, open_flags, o600)] /\
    fs w' = <["/tmp/abBBB.tmp"%string := File 384 EmptyString]> (fs Demo.world0) /\
    heap w' = heap Demo.world0 /\ fds w' = fds Demo.world0.
Proof.
  apply (generated_run_reports_first_free Demo.env0
           [(code "p", "ab"%string); (code "s", ".tmp"%string)] Demo.world0
           (Locals 0 None (Some "ab"%string) (Some ".tmp"%string) 0 o600 0) Demo.world0
           ["/tmp/abAAA"%string] "/tmp/abBBB" 0).
  - vm_compute. reflexivity.
  - reflexivity.
  - reflexivity.
  - reflexivity.
  - intros [|i] b' Hi; [|destruct i; discriminate].
    injection Hi as <-. split; vm_compute; reflexivity.
  - vm_compute. reflexivity.
  - vm_compute. reflexivity.
Defined.

(** X14.  With [--name F] as the last [-n] of options that are read
    without leaving, when [F] does not exist, nothing refuses its
    creation and close does not fail, the run ends with status 0
    whatever the fuel: it opens [F] once with the mask of the options,
    closes the descriptor, writes [F] to standard output and releases
    the name; [F] is the one file created, [tempnam] is not called,
    and the open descriptors are as they were. *)
Theorem named_run_creates (E : env) (opts : list (Z * string)) (n : nat)
    (w : world) (l : locals) (w1 : world) (F : string) :
  getopt_loop E opts init_locals w = Ret l w1 ->
  last_arg (code "n") opts None = Some F ->
  excl_errno E F w = None ->
  (forall d, close_fault E d = None) ->
  let md := from_option mode_of_arg o600 (last_arg (code "m") opts None) in
  exists w' pre d frees,
    main E opts n w = Exit 0 w' /\
    trace w' = trace w ++ pre ++ EvOpen F open_flags md d :: EvClose d 0 ::
                 EvWrite 1 (F +:+ nl) :: frees ++ [EvExit 0] /\
    forallb is_alloc pre = true /\ forallb is_free frees = true /\
    fs w' = <[F := File (Z.land md (Z.lnot (umask E))) EmptyString]> (fs w) /\
    fds w' = fds w.
Proof.
  intros Hopt Hlast He Hcl md.
  pose proof (getopt_loop_name E opts _ _ _ _ None Hopt eq_refl) as Hn.
  rewrite Hlast in Hn. destruct Hn as [Hname HF].
  pose proof (getopt_loop_cases E opts init_locals w) as Hc. rewrite Hopt in Hc.
  destruct Hc as [Hf0 (evs0 & Ht0 & Ha0)].
  destruct (getopt_loop_fields E opts _ _ _ _ Hopt) as (_ & _ & _ & Hmode & _ & _ & Hd0 & _).
  change (mode init_locals) with o600 in Hmode. fold md in Hmode. rewrite <- Hmode.
  clearbody md.
  rewrite <- (excl_errno_fs E F w w1 Hf0) in He.
  pose proof (create_named_cases E l w1 F HF) as H1. rewrite He in H1.
  set (k := fresh_fd w1) in *.
  set (l' := set_filename _ _) in H1. set (w2 := log _ _) in H1.
  destruct (finish_ok E l' w2 k) as (w' & frees & Hfin & Ht' & Hfr & Hfs' & _ & Hfds');
    [reflexivity | subst w2; run; apply fd_taken | apply Hcl | exact Hname | exact Hname |].
  unfold main. cbn [bind]. rewrite Hopt.
  apply N.eqb_neq in Hname. rewrite Hname. cbn [negb]. rewrite H1.
  exists w', evs0, (Z.of_nat k), frees.
  split; [exact Hfin|].
  split.
  { rewrite Ht'. subst w2 l'. run. rewrite Ht0. unfold deref in HF. rewrite HF. list_eq. }
  split; [exact Ha0|]. split; [exact Hfr|].
  split; [rewrite Hfs'; subst w2; run; now rewrite Hf0|].
  rewrite Hfds'. subst w2. run. rewrite <- Hd0.
  apply fd_returned. apply (fresh_fd_new w1).
Qed.

Lemma named_run_creates_witness :
  exists w' pre d frees,
    main Demo.env0 [(code "n", "/tmp/abAAA.tmp"%string); (code "m", "0640"%string);
                    (code "n", "/tmp/q"%string)] 0 Demo.world0 = Exit 0 w' /\
    trace w' = trace Demo.world0 ++ pre ++ EvOpen "/tmp/q" open_flags 416 d ::
                 EvClose d 0 :: EvWrite 1 ("/tmp/q" +:+ nl) :: frees ++ [EvExit 0] /\
    forallb is_alloc pre = true /\ forallb is_free frees = true /\
    fs w' = <["/tmp/q"%string := File 416 EmptyString]> (fs Demo.world0) /\
    fds w' = fds Demo.world0.
Proof.
  let r := eval vm_compute in
    (getopt_loop Demo.env0 [(code "n", "/tmp/abAAA.tmp"%string); (code "m", "0640"%string);
                            (code "n", "/tmp/q"%string)] init_locals Demo.world0) in
  lazymatch r with
  | Ret ?l ?w1 =>
      apply (named_run_creates Demo.env0
               [(code "n", "/tmp/abAAA.tmp"%string); (code "m", "0640"%string);
                (code "n", "/tmp/q"%string)] 0 Demo.world0 l w1 "/tmp/q");
      try (intros d); vm_compute; reflexivity
  end.
Defined.

(** X15.  A null pointer from the library ends the run with status 1
    and one [perror] line, and is not retried: from [tempnam], before
    any [open] of that turn; from [malloc] for the suffixed name, with
    the name of [tempnam] never opened; from [strdup] of the argument
    of [-n], inside the option loop.  No file changes. *)
Theorem null_pointer_is_fatal (E : env) (n : nat) (l : locals) (w : world)
    (a : string) :
  (tempnam_name E (ntempnam w) (dir l) (pfx l) = None ->
   exists w',
     create_generated E (S n) l w = Exit 1 w' /\ fs w' = fs w /\
     trace w' = trace w ++ [EvTempnam (dir l) (pfx l) None;
                            EvWrite 2 ("tempnam: " +:+ strerror E (errno w') +:+ nl);
                            EvExit 1]) /\
  (forall base s,
     tempnam_name E (ntempnam w) (dir l) (pfx l) = Some base ->
     sfx l = Some s ->
     alloc_fails E (nalloc w) = true ->
     exists w',
       create_generated E (S n) l w = Exit 1 w' /\ fs w' = fs w /\
       trace w' = trace w ++ [EvTempnam (dir l) (pfx l) (Some base); EvAlloc 0;
                              EvWrite 2 ("malloc: " +:+ strerror E (errno w') +:+ nl);
                              EvExit 1]) /\
  (alloc_fails E (nalloc w) = true ->
   exists w',
     option_case E (code "n") a l w = Exit 1 w' /\ fs w' = fs w /\
     trace w' = trace w ++ [EvAlloc 0;
                            EvWrite 2 ("strdup: " +:+ strerror E (errno w') +:+ nl);
                            EvExit 1]).
Proof.
  split; [|split].
  - intros Ht. rewrite create_generated_S. run. rewrite (tempnam_none E _ _ _ Ht). run.
    eexists. split; [reflexivity|]. run. split; [reflexivity|]. list_eq.
  - intros base s Ht Hs Ha. rewrite create_generated_S. run.
    rewrite (tempnam_some E _ _ _ _ Ht). run. rewrite fresh_addr_nz.
    run. erewrite (compose_null E _ l _ s Hs) by exact Ha.
    eexists. split; [reflexivity|]. run. split; [reflexivity|]. list_eq.
  - intros Ha.
    change (option_case E (code "n") a l w)
      with ((let* p := strdup E a in
             if (p =? 0)%N then syserror E "strdup" else ret (set_name p l)) w).
    unfold strdup. run. rewrite (malloc_null E w Ha). run.
    eexists. split; [reflexivity|]. run. split; [reflexivity|]. list_eq.
Qed.

Lemma null_pointer_is_fatal_witness :
  let oom := Env "tempfile" "1.0" 18 (fun _ => "Cannot allocate memory"%string)
                 Demo.names (fun _ => true) Demo.faults Demo.closes EmptyString in
  let dry := Env "tempfile" "1.0" 18 (fun _ => "Cannot allocate memory"%string)
                 (fun _ _ _ => None) (fun _ => false) Demo.faults Demo.closes EmptyString in
  (exists w',
     create_generated dry 1 Demo.l_ab Demo.world0 = Exit 1 w' /\
     fs w' = fs Demo.world0 /\
     trace w' = trace Demo.world0 ++
                  [EvTempnam None (Some "ab"%string) None;
                   EvWrite 2 ("tempnam: " +:+ strerror dry (errno w') +:+ nl); EvExit 1]) /\
  (exists w',
     create_generated oom 1 Demo.l_ab Demo.world0 = Exit 1 w' /\
     fs w' = fs Demo.world0 /\
     trace w' = trace Demo.world0 ++
                  [EvTempnam None (Some "ab"%string) (Some "/tmp/abAAA"%string); EvAlloc 0;
                   EvWrite 2 ("malloc: " +:+ strerror oom (errno w') +:+ nl); EvExit 1]) /\
  (exists w',
     option_case oom (code "n") "/tmp/q" init_locals Demo.world0 = Exit 1 w' /\
     fs w' = fs Demo.world0 /\
     trace w' = trace Demo.world0 ++
                  [EvAlloc 0;
                   EvWrite 2 ("strdup: " +:+ strerror oom (errno w') +:+ nl); EvExit 1]).
Proof.
  intros oom dry. split; [|split].
  - apply (proj1 (null_pointer_is_fatal dry 0 Demo.l_ab Demo.world0 "")). reflexivity.
  - apply (proj1 (proj2 (null_pointer_is_fatal oom 0 Demo.l_ab Demo.world0 ""))
             "/tmp/abAAA" ".tmp"); reflexivity.
  - apply (proj2 (proj2 (null_pointer_is_fatal oom 0 init_locals Demo.world0 "/tmp/q"))).
    reflexivity.
Defined.

(** X16.  When the close fails the file stays: the status is 1 and
    nothing is on standard output, yet the path that was created, the
    one whose descriptor the close was given, exists, empty, and is
    not removed. *)
Theorem failed_close_leaves_file (E : env) (opts : list (Z * string)) (n : nat)
    (w : world) (st : Z) (w' : world) (evs : list event) (d r : Z) :
  main E opts n w = Exit st w' ->
  trace w' = trace w ++ evs ->
  In (EvClose d r) evs ->
  r <> 0 ->
  st = 1 /\ written 1 evs = [] /\
  exists path md,
    In (EvOpen path open_flags md d) evs /\
    fs w !! path = None /\
    fs w' = <[path := File (Z.land md (Z.lnot (umask E))) EmptyString]> (fs w).
Proof.
  intros Hm Ht Hin Hr. pose proof (main_cases E opts n w) as H. rewrite Hm in H.
  destruct H as [[_ (evs' & Ht' & Hi)] |
                 (l & w1 & pre & path & d0 & tail & Hopt & Ht' & Hq & Hd & Hnone & Hfs & Hp & Htail)];
    rewrite Ht in Ht'; apply app_inv_head in Ht'; subst evs.
  - now apply inert_no_close in Hin.
  - apply in_app_or in Hin as [Hin | [Hin | Hin]];
      [now apply quiet_no_close in Hin | discriminate |].
    destruct Htail as [(-> & frees & Hfr & ->) | (-> & msg & ->)].
    + exfalso. destruct Hin as [Hin | [Hin | Hin]]; [|discriminate|].
      * injection Hin as _ <-. now apply Hr.
      * apply in_app_or in Hin as [Hin | [Hin | []]]; [|discriminate].
        now apply free_no_close in Hin.
    + destruct Hin as [Hin | [Hin | [Hin | []]]]; try discriminate.
      injection Hin as -> _.
      split; [reflexivity|].
      split; [rewrite written_app, (written_quiet _ _ Hq); reflexivity|].
      exists path, (mode l). split; [apply in_or_app; right; now left|]. auto.
Qed.

Lemma failed_close_leaves_file_witness :
  exists st w' evs,
    main Demo.env_eio [(code "n", "/tmp/q"%string)] 0 Demo.world0 = Exit st w' /\
    trace w' = evs /\
    st = 1 /\ written 1 evs = [] /\
    exists path md,
      In (EvOpen path open_flags md 3) evs /\
      fs Demo.world0 !! path = None /\
      fs w' = <[path := File (Z.land md (Z.lnot (umask Demo.env_eio))) EmptyString]>
                (fs Demo.world0).
Proof.
  let r := eval vm_compute in
    (main Demo.env_eio [(code "n", "/tmp/q"%string)] 0 Demo.world0) in
  lazymatch r with
  | Exit ?st ?w =>
      exists st, w, (trace w);
      split; [vm_compute; reflexivity|]; split; [reflexivity|];
      apply (failed_close_leaves_file Demo.env_eio [(code "n", "/tmp/q"%string)] 0
               Demo.world0 st w (trace w) 3 (-1));
      [vm_compute; reflexivity | vm_compute; reflexivity | vm_compute; tauto | discriminate]
  end.
Defined.
